(** * Card-Build: the deck-builder form component

    A shallow embedding of the [DeckBuilder] React component (the variant
    with the single [state] object, the format radio buttons and
    [renderDeckList]).  The component state is a record, every
    [setState(prev => ...)] is a function on that record, and the [async]
    handlers are terms of a small monad with three effects: state updates,
    thrown errors and awaited [fetch] calls.  A handler is run against an
    environment that answers each request, which yields the list of requests
    issued and the state after the handler has completed.

    Modelling conventions.
    - JS strings are [string]; [toLowerCase] maps the ASCII letters and
      leaves every other character alone.
    - Where the component stores [null] ([error], [result], and a build
      body that is [null]), it is [None].  An optional property of a JSON
      body ([error], [reason], [commander], [partner], [cmc]) is [None]
      when its key is absent, which the code reads as [undefined]; a body
      carrying [null] under such a key is not among the typed bodies.
    - JSON bodies are typed after the shapes the handlers read; a body that
      cannot be read, like any other error raised inside a [try] block, is a
      rejection carrying the error's [message].
    - Numbers ([step], [cmc]) are integers. *)

From Stdlib Require Import String Ascii List ZArith NArith Bool Lia DecimalString.
Import ListNotations.
Local Open Scope string_scope.
Local Open Scope list_scope.

(** ** JavaScript helpers *)

(** [x |> f |> g] reads like the object spread [{...x, f, g}]. *)
Notation "x |> f" := (f x) (at level 45, left associativity, only parsing).

(** ASCII case folding of one character. *)
Definition lower_ascii (c : ascii) : ascii :=
  let n := N_of_ascii c in
  if (65 <=? n)%N && (n <=? 90)%N then ascii_of_N (n + 32) else c.

(** [String.prototype.toLowerCase]. *)
Fixpoint toLowerCase (s : string) : string :=
  match s with
  | EmptyString => EmptyString
  | String c s' => String (lower_ascii c) (toLowerCase s')
  end.

(** [String.prototype.includes]: [includes s sub] is [s.includes(sub)]. *)
Fixpoint includes (s sub : string) : bool :=
  prefix sub s ||
  match s with
  | EmptyString => false
  | String _ s' => includes s' sub
  end.

(** Truthiness of a string: only the empty string is falsy. *)
Definition truthy (s : string) : bool := negb (s =? "").

(** [v || d] for an optional string property [v]. *)
Definition or_default (v : option string) (d : string) : string :=
  match v with
  | Some s => if truthy s then s else d
  | None => d
  end.

(** [new Error(v).message] for an optional string property [v]: the text,
    or the empty message when the key is absent ([new Error(undefined)]). *)
Definition error_message (v : option string) : string :=
  match v with
  | Some s => s
  | None => ""
  end.

(** Template-literal interpolation of numbers. *)
Definition string_of_Z (z : Z) : string := NilZero.string_of_int (Z.to_int z).
Definition string_of_nat (n : nat) : string := NilZero.string_of_uint (Nat.to_uint n).

(** How an evaluation ends: with a value or with a thrown error. *)
Inductive completion (A : Type) : Type :=
| Returns (a : A)
| Throws (message : string).
Arguments Returns {A} a.
Arguments Throws {A} message.

(** How a promise settles. *)
Inductive settled (B : Type) : Type :=
| Rejects (message : string)
| Fulfils (value : B).
Arguments Rejects {B} message.
Arguments Fulfils {B} value.

(** ** Data model *)

(** A card object [{name, type, cmc}] as the service sends it: [type] is
    the string the categorisation lowers, [cmc] may be absent. *)
Record card : Type := {
  name : string;
  type : string;
  cmc : option Z
}.

(** The success body of [/build-deck]. *)
Record BuiltDeck : Type := {
  commander : option card;
  partner : option card;
  cards : list card
}.

(** The component state, as given to [useState]. *)
Record State : Type := {
  step : Z;
  format : string;
  cardList : string;
  useCommander : bool;
  commanderName : string;
  partnerCommander : string;
  deckGoal : string;
  loading : bool;
  error : option string;
  result : option BuiltDeck;
  hasPartnerAbility : bool
}.

Definition initialState : State := {|
  step := 1;
  format := "";
  cardList := "";
  useCommander := false;
  commanderName := "";
  partnerCommander := "";
  deckGoal := "";
  loading := false;
  error := None;
  result := None;
  hasPartnerAbility := false
|}.

(** One-key overrides of a state object. *)
Definition set_step (v : Z) (s : State) : State :=
  {| step := v; format := format s; cardList := cardList s;
     useCommander := useCommander s; commanderName := commanderName s;
     partnerCommander := partnerCommander s; deckGoal := deckGoal s;
     loading := loading s; error := error s; result := result s;
     hasPartnerAbility := hasPartnerAbility s |}.

Definition set_format (v : string) (s : State) : State :=
  {| step := step s; format := v; cardList := cardList s;
     useCommander := useCommander s; commanderName := commanderName s;
     partnerCommander := partnerCommander s; deckGoal := deckGoal s;
     loading := loading s; error := error s; result := result s;
     hasPartnerAbility := hasPartnerAbility s |}.

Definition set_cardList (v : string) (s : State) : State :=
  {| step := step s; format := format s; cardList := v;
     useCommander := useCommander s; commanderName := commanderName s;
     partnerCommander := partnerCommander s; deckGoal := deckGoal s;
     loading := loading s; error := error s; result := result s;
     hasPartnerAbility := hasPartnerAbility s |}.

Definition set_useCommander (v : bool) (s : State) : State :=
  {| step := step s; format := format s; cardList := cardList s;
     useCommander := v; commanderName := commanderName s;
     partnerCommander := partnerCommander s; deckGoal := deckGoal s;
     loading := loading s; error := error s; result := result s;
     hasPartnerAbility := hasPartnerAbility s |}.

Definition set_commanderName (v : string) (s : State) : State :=
  {| step := step s; format := format s; cardList := cardList s;
     useCommander := useCommander s; commanderName := v;
     partnerCommander := partnerCommander s; deckGoal := deckGoal s;
     loading := loading s; error := error s; result := result s;
     hasPartnerAbility := hasPartnerAbility s |}.

Definition set_partnerCommander (v : string) (s : State) : State :=
  {| step := step s; format := format s; cardList := cardList s;
     useCommander := useCommander s; commanderName := commanderName s;
     partnerCommander := v; deckGoal := deckGoal s;
     loading := loading s; error := error s; result := result s;
     hasPartnerAbility := hasPartnerAbility s |}.

Definition set_deckGoal (v : string) (s : State) : State :=
  {| step := step s; format := format s; cardList := cardList s;
     useCommander := useCommander s; commanderName := commanderName s;
     partnerCommander := partnerCommander s; deckGoal := v;
     loading := loading s; error := error s; result := result s;
     hasPartnerAbility := hasPartnerAbility s |}.

Definition set_loading (v : bool) (s : State) : State :=
  {| step := step s; format := format s; cardList := cardList s;
     useCommander := useCommander s; commanderName := commanderName s;
     partnerCommander := partnerCommander s; deckGoal := deckGoal s;
     loading := v; error := error s; result := result s;
     hasPartnerAbility := hasPartnerAbility s |}.

Definition set_error (v : option string) (s : State) : State :=
  {| step := step s; format := format s; cardList := cardList s;
     useCommander := useCommander s; commanderName := commanderName s;
     partnerCommander := partnerCommander s; deckGoal := deckGoal s;
     loading := loading s; error := v; result := result s;
     hasPartnerAbility := hasPartnerAbility s |}.

Definition set_result (v : option BuiltDeck) (s : State) : State :=
  {| step := step s; format := format s; cardList := cardList s;
     useCommander := useCommander s; commanderName := commanderName s;
     partnerCommander := partnerCommander s; deckGoal := deckGoal s;
     loading := loading s; error := error s; result := v;
     hasPartnerAbility := hasPartnerAbility s |}.

Definition set_hasPartnerAbility (v : bool) (s : State) : State :=
  {| step := step s; format := format s; cardList := cardList s;
     useCommander := useCommander s; commanderName := commanderName s;
     partnerCommander := partnerCommander s; deckGoal := deckGoal s;
     loading := loading s; error := error s; result := result s;
     hasPartnerAbility := v |}.

(** The computed key [[isPartner ? 'partnerCommander' : 'commanderName']]. *)
Definition set_name (isPartner : bool) (v : string) (s : State) : State :=
  if isPartner then set_partnerCommander v s else set_commanderName v s.

(** ** The remote service *)

(** Body of a non-2xx answer: [{error: string}], the field possibly absent. *)
Module ErrorBody.
Record t : Type := { error : option string }.
End ErrorBody.

(** Success body of [/validate-commander]. *)
Module ValidateBody.
Record t : Type := { has_partner : bool }.
End ValidateBody.

(** Body of [/check-partner]. *)
Module PartnerBody.
Record t : Type := { is_compatible : bool; reason : option string }.
End PartnerBody.

(** The three POST requests, with the fields of their JSON bodies. *)
Inductive request : Type :=
| ValidateCommander (name : string) (isPartner : bool)
| CheckPartner (commander1 commander2 : string)
| BuildDeck (format cardList commander partnerCommander deckGoal : string).

Definition API_BASE_URL : string := "http://localhost:5000/api".

Definition url (r : request) : string :=
  match r with
  | ValidateCommander _ _ => API_BASE_URL ++ "/validate-commander"
  | CheckPartner _ _ => API_BASE_URL ++ "/check-partner"
  | BuildDeck _ _ _ _ _ => API_BASE_URL ++ "/build-deck"
  end.

(** A response object: [ok] and what [json()] settles to.  The body read
    when [ok] is false has type [E], the one read when it is true has
    type [D]. *)
Inductive response (E D : Type) : Type :=
| NotOk (json : settled E)
| Ok (json : settled D).
Arguments NotOk {E D} json.
Arguments Ok {E D} json.

Definition ok {E D : Type} (r : response E D) : bool :=
  match r with
  | NotOk _ => false
  | Ok _ => true
  end.

(** What [await fetch(...)] gives: a rejection or a response. *)
Inductive fetched (E D : Type) : Type :=
| Rejected (message : string)
| Resolved (r : response E D).
Arguments Rejected {E D} message.
Arguments Resolved {E D} r.

Definition failure_body (r : request) : Type :=
  match r with
  | ValidateCommander _ _ => ErrorBody.t
  | CheckPartner _ _ => PartnerBody.t
  | BuildDeck _ _ _ _ _ => ErrorBody.t
  end.

Definition success_body (r : request) : Type :=
  match r with
  | ValidateCommander _ _ => ValidateBody.t
  | CheckPartner _ _ => PartnerBody.t
  | BuildDeck _ _ _ _ _ => option BuiltDeck
  end.

Definition reply (r : request) : Type :=
  fetched (failure_body r) (success_body r).

(** The service as the component sees it during one handler run. *)
Definition environment : Type := forall r : request, reply r.

(** ** The handler monad *)

(** An [async] function body: it returns, throws, queues a state update
    [setState(f)], or awaits a request and continues with the answer. *)
Inductive async (A : Type) : Type :=
| Return (a : A)
| Throw (message : string)
| SetState (f : State -> State) (k : async A)
| Await (r : request) (k : reply r -> async A).
Arguments Return {A} a.
Arguments Throw {A} message.
Arguments SetState {A} f k.
Arguments Await {A} r k.

Fixpoint bind {A B : Type} (m : async A) (f : A -> async B) : async B :=
  match m with
  | Return a => f a
  | Throw message => Throw message
  | SetState g k => SetState g (bind k f)
  | Await r k => Await r (fun x => bind (k x) f)
  end.

(** [try { m } catch (error) { h error.message }]. *)
Fixpoint try_catch {A : Type} (m : async A) (h : string -> async A) : async A :=
  match m with
  | Return a => Return a
  | Throw message => h message
  | SetState g k => SetState g (try_catch k h)
  | Await r k => Await r (fun x => try_catch (k x) h)
  end.

Declare Scope async_scope.
Delimit Scope async_scope with async.
Bind Scope async_scope with async.
Notation "x <- m ;; k" := (bind m (fun x => k))
  (at level 61, m at next level, right associativity) : async_scope.
Notation "m ;; k" := (bind m (fun _ => k))
  (at level 61, right associativity) : async_scope.
Local Open Scope async_scope.

Definition setState (f : State -> State) : async unit :=
  SetState f (Return tt).

(** [await fetch(url, {method: 'POST', body})]. *)
Definition fetch (r : request)
  : async (response (failure_body r) (success_body r)) :=
  Await r (fun answer =>
    match answer with
    | Rejected message => Throw message
    | Resolved resp => Return resp
    end).

(** [await response.json()], given what [json()] settles to. *)
Definition json {B : Type} (j : settled B) : async B :=
  match j with
  | Rejects message => Throw message
  | Fulfils b => Return b
  end.

(** The body promise of a response whatever its status. *)
Definition body {B : Type} (r : response B B) : settled B :=
  match r with
  | NotOk j => j
  | Ok j => j
  end.

(** Running a handler from state [s] against [env]: the requests issued,
    in order, the state once the handler has completed, and how it ended. *)
Fixpoint exec {A : Type} (env : environment) (m : async A) (s : State)
  : list request * State * completion A :=
  match m with
  | Return a => ([], s, Returns a)
  | Throw message => ([], s, Throws message)
  | SetState f k => exec env k (f s)
  | Await r k =>
      let '(calls, s', c) := exec env (k (env r)) s in
      (r :: calls, s', c)
  end.

Definition calls {A : Type} (env : environment) (m : async A) (s : State)
  : list request := fst (fst (exec env m s)).

Definition final {A : Type} (env : environment) (m : async A) (s : State)
  : State := snd (fst (exec env m s)).

Definition outcome {A : Type} (env : environment) (m : async A) (s : State)
  : completion A := snd (exec env m s).

(** ** Event handlers

    A handler that reads [state] reads the object of the render it was
    created in; it is passed explicitly as the argument [state]. *)

Definition handleFormatChange (format : string) : async unit :=
  setState (fun prev =>
    prev |> set_format format
         |> set_step 2
         |> set_commanderName ""
         |> set_partnerCommander ""
         |> set_useCommander (format =? "commander")).

(** A [File]: what its [text()] promise settles to. *)
Record File : Type := { text : settled string }.

Definition handleFileUpload (file : option File) : async unit :=
  match file with
  | Some file =>
      match text file with
      | Fulfils text =>
          setState (fun prev => prev |> set_cardList text |> set_error None)
      | Rejects _ =>
          setState (fun prev =>
            prev |> set_error (Some "Error reading file. Please try again."))
      end
  | None => Return tt
  end.

Definition handleCommanderInput (state : State) (name : string)
    (isPartner : bool) : async unit :=
  setState (fun prev =>
    prev |> set_loading true |> set_error None |> set_name isPartner name) ;;
  if negb (truthy name) then
    setState (fun prev =>
      prev |> set_loading false |> set_hasPartnerAbility false)
  else
    try_catch
      (response <- fetch (ValidateCommander name isPartner) ;;
       match response with
       | NotOk j =>
           error <- json j ;;
           Throw (or_default (ErrorBody.error error) "Invalid commander name")
       | Ok j =>
           data <- json j ;;
           if negb isPartner then
             setState (fun prev =>
               prev |> set_hasPartnerAbility (ValidateBody.has_partner data)
                    |> set_loading false
                    |> set_error None)
           else
             partnerResponse <-
               fetch (CheckPartner (commanderName state) name) ;;
             partnerData <- json (body partnerResponse) ;;
             if negb (PartnerBody.is_compatible partnerData) then
               Throw (error_message (PartnerBody.reason partnerData))
             else
               setState (fun prev =>
                 prev |> set_loading false |> set_error None)
       end)
      (fun message =>
         setState (fun prev =>
           prev |> set_loading false
                |> set_error (Some ("Error validating commander: " ++ message))
                |> set_name isPartner ""))%string.

Definition handleBuildDeck (state : State) : async unit :=
  if negb (truthy (cardList state)) then
    setState (fun prev =>
      prev |> set_error (Some "Please provide a card list"))
  else
    setState (fun prev => prev |> set_loading true |> set_error None) ;;
    try_catch
      (response <-
         fetch (BuildDeck (format state) (cardList state)
                  (commanderName state) (partnerCommander state)
                  (deckGoal state)) ;;
       match response with
       | NotOk j =>
           error <- json j ;;
           Throw (or_default (ErrorBody.error error) "Error building deck")
       | Ok j =>
           result <- json j ;;
           setState (fun prev =>
             prev |> set_loading false |> set_result result |> set_step 4)
       end)
      (fun message =>
         setState (fun prev =>
           prev |> set_loading false
                |> set_error (Some ("Error building deck: " ++ message))))%string.

(** The two inline [onChange] handlers of the text areas. *)
Definition handleCardListChange (value : string) : async unit :=
  setState (fun prev => prev |> set_cardList value).

Definition handleDeckGoalChange (value : string) : async unit :=
  setState (fun prev => prev |> set_deckGoal value).

(** ** The workflow as a transition system *)

Inductive event : Type :=
| FormatChange (format : string)
| FileUpload (file : option File)
| CardListChange (value : string)
| CommanderInput (value : string) (isPartner : bool)
| DeckGoalChange (value : string)
| BuildDeckClick.

Definition handler (state : State) (ev : event) : async unit :=
  match ev with
  | FormatChange format => handleFormatChange format
  | FileUpload file => handleFileUpload file
  | CardListChange value => handleCardListChange value
  | CommanderInput value isPartner => handleCommanderInput state value isPartner
  | DeckGoalChange value => handleDeckGoalChange value
  | BuildDeckClick => handleBuildDeck state
  end.

(** The state after [ev] has been handled to completion in state [s]. *)
Definition dispatch (env : environment) (ev : event) (s : State) : State :=
  final env (handler s ev) s.

(** Whether the rendered form offers the control behind [ev] in state [s]
    (the conditions of the JSX, and [disabled] for the button). *)
Definition offered (s : State) (ev : event) : bool :=
  match ev with
  | FormatChange format => (format =? "standard") || (format =? "commander")
  | FileUpload _ => (2 <=? step s)%Z
  | CardListChange _ => (2 <=? step s)%Z
  | CommanderInput _ isPartner =>
      (2 <=? step s)%Z && (format s =? "commander")
      && (if isPartner then hasPartnerAbility s else true)
  | DeckGoalChange _ => (2 <=? step s)%Z && (format s =? "commander")
  | BuildDeckClick =>
      (2 <=? step s)%Z && (format s =? "commander")
      && negb (loading s || negb (truthy (cardList s))
               || negb (truthy (commanderName s)))
  end.

(** States reached from the initial one by handling events one after the
    other, each against any behaviour of the service. *)
Inductive reachable : State -> Prop :=
| reachable_init : reachable initialState
| reachable_dispatch (s : State) (ev : event) (env : environment) :
    reachable s -> reachable (dispatch env ev s).

(** The same, using only the controls the form offers. *)
Inductive ui_reachable : State -> Prop :=
| ui_reachable_init : ui_reachable initialState
| ui_reachable_dispatch (s : State) (ev : event) (env : environment) :
    ui_reachable s -> offered s ev = true ->
    ui_reachable (dispatch env ev s).

(** ** Rendering the built deck *)

(** The object [categorizedCards]: its keys in insertion order, each with
    its array.  An array element is a card, or [undefined]. *)
Definition buckets : Type := list (string * list (option card)).

(** [obj[key].push(v)]. *)
Definition push (key : string) (v : option card) (obj : buckets) : buckets :=
  map (fun entry =>
         if fst entry =? key then (fst entry, snd entry ++ [v]) else entry)
      obj.

(** The body of the [forEach] callback. *)
Definition categorize (categorizedCards : buckets) (card : card) : buckets :=
  let type := toLowerCase (type card) in
  if includes type "creature" then
    push "Creatures" (Some card) categorizedCards
  else if includes type "instant" then
    push "Instants" (Some card) categorizedCards
  else if includes type "sorcery" then
    push "Sorceries" (Some card) categorizedCards
  else if includes type "artifact" then
    push "Artifacts" (Some card) categorizedCards
  else if includes type "enchantment" then
    push "Enchantments" (Some card) categorizedCards
  else if includes type "planeswalker" then
    push "Planeswalkers" (Some card) categorizedCards
  else if includes type "land" then
    push "Lands" (Some card) categorizedCards
  else categorizedCards.

(** [categorizedCards] once [state.result.cards.forEach] has run. *)
Definition categorizedCards (result : BuiltDeck) : buckets :=
  fold_left categorize (cards result)
    [ ("Commander", [commander result]);
      ("Partner", match partner result with
                  | Some p => [Some p]
                  | None => []
                  end);
      ("Creatures", []);
      ("Instants", []);
      ("Sorceries", []);
      ("Artifacts", []);
      ("Enchantments", []);
      ("Planeswalkers", []);
      ("Lands", []) ].

(** [Array.prototype.map] with a callback [(element, index)] that may
    throw; the first throw ends the whole map. *)
Fixpoint array_map {A B : Type} (f : A -> nat -> completion B)
    (index : nat) (l : list A) : completion (list B) :=
  match l with
  | [] => Returns []
  | x :: l' =>
      match f x index with
      | Throws message => Throws message
      | Returns y =>
          match array_map f (S index) l' with
          | Throws message => Throws message
          | Returns ys => Returns (y :: ys)
          end
      end
  end.

(** A list item [<li key={index}>], with its text. *)
Record Li : Type := { index : nat; content : string }.

(** A section [<div key={category}>]: heading and list. *)
Record Section : Type := { category : string; h3 : string; ul : list Li }.

(** The item of a card that is an object. *)
Definition li_of (card : card) (index : nat) : Li :=
  {| index := index;
     content :=
       name card ++ " " ++
       match cmc card with
       | Some n => if (n =? 0)%Z then "" else "(" ++ string_of_Z n ++ " CMC)"
       | None => ""
       end |}.

(** The callback of [cards.map]: reading [card.name] of [undefined], the
    element of the Commander array when the result has no [commander]
    key, throws a TypeError (the message is the one V8 gives). *)
Definition renderCard (card : option card) (index : nat) : completion Li :=
  match card with
  | Some card => Returns (li_of card index)
  | None => Throws "Cannot read properties of undefined (reading 'name')"
  end.

(** The callback of [Object.entries(categorizedCards).map]:
    [cards.length > 0 && (<div>...</div>)], where [None] is [false]. *)
Definition renderCategory (entry : string * list (option card)) (_ : nat)
  : completion (option Section) :=
  let '(category, cards) := entry in
  if (0 <? length cards)%nat then
    match array_map renderCard 0 cards with
    | Throws message => Throws message
    | Returns items =>
        Returns (Some {| category := category;
                         h3 := category ++ " (" ++
                               string_of_nat (length cards) ++ ")";
                         ul := items |})
    end
  else Returns None.

(** [renderDeckList]: [null] without a result, else the children of the
    outer [<div>], one per category. *)
Definition renderDeckList (state : State)
  : completion (option (list (option Section))) :=
  match result state with
  | None => Returns None
  | Some result =>
      match array_map renderCategory 0 (categorizedCards result) with
      | Throws message => Throws message
      | Returns children => Returns (Some children)
      end
  end.

(** What of the children is displayed: [false] renders nothing. *)
Definition displayed (children : list (option Section)) : list Section :=
  flat_map (fun child => match child with
                         | Some section => [section]
                         | None => []
                         end) children.

(** ** Vocabulary of the properties *)

(** The categories filled from [cards], in order, with their keywords. *)
Definition type_categories : list (string * string) :=
  [ ("Creatures", "creature");
    ("Instants", "instant");
    ("Sorceries", "sorcery");
    ("Artifacts", "artifact");
    ("Enchantments", "enchantment");
    ("Planeswalkers", "planeswalker");
    ("Lands", "land") ].

(** The card's type contains [keyword], whatever the case of its letters. *)
Definition matches (card : card) (keyword : string) : bool :=
  includes (toLowerCase (type card)) keyword.

(** The earliest category of [type_categories] whose keyword the card's
    type contains, if any. *)
Definition category_of (card : card) : option string :=
  option_map fst (find (fun entry => matches card (snd entry)) type_categories).

(** The cards of [cards] that belong to [category], in input order. *)
Definition cards_in (category : string) (cards : list card) : list card :=
  filter (fun card => match category_of card with
                      | Some c => c =? category
                      | None => false
                      end) cards.

(** Items of a list of card objects, numbered from [index]. *)
Fixpoint items_from (index : nat) (cards : list card) : list Li :=
  match cards with
  | [] => []
  | card :: cards' => li_of card index :: items_from (S index) cards'
  end.

(** The section shown for [category] holding [cards]. *)
Definition section_of (category : string) (cards : list card) : Section :=
  {| category := category;
     h3 := category ++ " (" ++ string_of_nat (length cards) ++ ")";
     ul := items_from 0 cards |}.

(** The section of a category, or nothing when it has no card. *)
Definition section_if_any (category : string) (cards : list card)
  : list Section :=
  match cards with
  | [] => []
  | _ :: _ => [section_of category cards]
  end.

(** Array of an optional card: one element, or none. *)
Definition optional (c : option card) : list card :=
  match c with
  | Some c => [c]
  | None => []
  end.

(** The child rendered for a category: a section, or [false]. *)
Definition child_of (category : string) (cards : list card)
  : option Section :=
  match cards with
  | [] => None
  | _ :: _ => Some (section_of category cards)
  end.

(** The output has a section titled [title]. *)
Definition has_section (title : string) (children : list (option Section))
  : Prop :=
  exists section, In section (displayed children) /\ category section = title.

(** The output of [renderDeckList] contains a Commander section with
    exactly one entry. *)
Definition shows_commander_section (state : State) : Prop :=
  exists children section,
    renderDeckList state = Returns (Some children) /\
    In section (displayed children) /\
    category section = "Commander" /\
    length (ul section) = 1%nat.

(** A request that fails, and the detail the handler reports: [fetch]
    rejects, or [json()] rejects, with the error's message; or the status
    is not 2xx and the body carries an [error] text, or none (then the
    handler's default). *)
Inductive fails {D : Type} (default : string)
  : fetched ErrorBody.t D -> string -> Prop :=
| fails_rejected (message : string) :
    fails default (Rejected message) message
| fails_status_error (e : ErrorBody.t) (text : string) :
    ErrorBody.error e = Some text -> text <> "" ->
    fails default (Resolved (NotOk (Fulfils e))) text
| fails_status_default (e : ErrorBody.t) :
    ErrorBody.error e = None \/ ErrorBody.error e = Some "" ->
    fails default (Resolved (NotOk (Fulfils e))) default
| fails_status_unreadable (message : string) :
    fails default (Resolved (NotOk (Rejects message))) message
| fails_body_unreadable (message : string) :
    fails default (Resolved (Ok (Rejects message))) message.

(** ** Sample data *)

Definition bolt : card := {| name := "Bolt"; type := "Instant"; cmc := Some 1%Z |}.
Definition bear : card := {| name := "Bear"; type := "Creature"; cmc := Some 2%Z |}.
Definition atraxa : card := {| name := "Atraxa"; type := ""; cmc := None |}.

Definition sample_deck : BuiltDeck :=
  {| commander := Some atraxa; partner := None; cards := [bolt; bear] |}.

(** A deck whose [commander] is absent. *)
Definition headless_deck : BuiltDeck :=
  {| commander := None; partner := None; cards := [bear] |}.

Definition showing (deck : BuiltDeck) : State :=
  initialState |> set_format "commander" |> set_cardList "1x Bolt"
               |> set_result (Some deck) |> set_step 4.

(** A service that accepts every commander (with the partner ability),
    finds no two commanders compatible, and builds [sample_deck]. *)
Definition picky_service : environment :=
  fun r =>
    match r return reply r with
    | ValidateCommander _ _ =>
        Resolved (Ok (Fulfils {| ValidateBody.has_partner := true |}))
    | CheckPartner _ _ =>
        Resolved (Ok (Fulfils
          {| PartnerBody.is_compatible := false;
             PartnerBody.reason := Some "Both commanders need Partner" |}))
    | BuildDeck _ _ _ _ _ => Resolved (Ok (Fulfils (Some sample_deck)))
    end.

(** A service that answers every request with status 400 and no detail. *)
Definition failing_service : environment :=
  fun r =>
    match r return reply r with
    | ValidateCommander _ _ =>
        Resolved (NotOk (Fulfils {| ErrorBody.error := None |}))
    | CheckPartner _ _ =>
        Resolved (NotOk (Fulfils
          {| PartnerBody.is_compatible := false;
             PartnerBody.reason := None |}))
    | BuildDeck _ _ _ _ _ =>
        Resolved (NotOk (Fulfils {| ErrorBody.error := None |}))
    end.

(** A session: pick Commander, type a card list, enter a commander,
    build the deck. *)
Definition picked : State :=
  dispatch picky_service (FormatChange "commander") initialState.
Definition listed : State :=
  dispatch picky_service (CardListChange "1x Sol Ring") picked.
Definition commanded : State :=
  dispatch picky_service (CommanderInput "Tymna the Weaver" false) listed.
Definition built : State :=
  dispatch picky_service BuildDeckClick commanded.
(** ... and then pick Standard. *)
Definition switched : State :=
  dispatch picky_service (FormatChange "standard") built.

(** ** The form with one hook per field

    The other [DeckBuilder] component keeps each field in a [useState] of
    its own, has a format drop-down and a single handler, [buildDeck],
    written with [try] / [catch] / [finally].  It posts to the same
    [/build-deck] endpoint, with the same five keys in its body. *)
Module Variant.

(** The values of the eight hooks. *)
Record State : Type := {
  commander : string;
  partnerCommander : string;
  cardList : string;
  deckGoal : string;
  format : string;
  loading : bool;
  error : string;
  deck : option BuiltDeck
}.

Definition initialState : State := {|
  commander := "";
  partnerCommander := "";
  cardList := "";
  deckGoal := "";
  format := "commander";
  loading := false;
  error := "";
  deck := None
|}.

(** The setters of the hooks. *)
Definition setCommander (v : string) (s : State) : State :=
  {| commander := v; partnerCommander := partnerCommander s;
     cardList := cardList s; deckGoal := deckGoal s; format := format s;
     loading := loading s; error := error s; deck := deck s |}.

Definition setPartnerCommander (v : string) (s : State) : State :=
  {| commander := commander s; partnerCommander := v;
     cardList := cardList s; deckGoal := deckGoal s; format := format s;
     loading := loading s; error := error s; deck := deck s |}.

Definition setCardList (v : string) (s : State) : State :=
  {| commander := commander s; partnerCommander := partnerCommander s;
     cardList := v; deckGoal := deckGoal s; format := format s;
     loading := loading s; error := error s; deck := deck s |}.

Definition setDeckGoal (v : string) (s : State) : State :=
  {| commander := commander s; partnerCommander := partnerCommander s;
     cardList := cardList s; deckGoal := v; format := format s;
     loading := loading s; error := error s; deck := deck s |}.

Definition setFormat (v : string) (s : State) : State :=
  {| commander := commander s; partnerCommander := partnerCommander s;
     cardList := cardList s; deckGoal := deckGoal s; format := v;
     loading := loading s; error := error s; deck := deck s |}.

Definition setLoading (v : bool) (s : State) : State :=
  {| commander := commander s; partnerCommander := partnerCommander s;
     cardList := cardList s; deckGoal := deckGoal s; format := format s;
     loading := v; error := error s; deck := deck s |}.

Definition setError (v : string) (s : State) : State :=
  {| commander := commander s; partnerCommander := partnerCommander s;
     cardList := cardList s; deckGoal := deckGoal s; format := format s;
     loading := loading s; error := v; deck := deck s |}.

Definition setDeck (v : option BuiltDeck) (s : State) : State :=
  {| commander := commander s; partnerCommander := partnerCommander s;
     cardList := cardList s; deckGoal := deckGoal s; format := format s;
     loading := loading s; error := error s; deck := v |}.

(** Handler bodies over these hooks: a setter call, a thrown error, or an
    awaited request. *)
Inductive async (A : Type) : Type :=
| Return (a : A)
| Throw (message : string)
| Setter (f : State -> State) (k : async A)
| Await (r : request) (k : reply r -> async A).
Arguments Return {A} a.
Arguments Throw {A} message.
Arguments Setter {A} f k.
Arguments Await {A} r k.

Fixpoint bind {A B : Type} (m : async A) (f : A -> async B) : async B :=
  match m with
  | Return a => f a
  | Throw message => Throw message
  | Setter g k => Setter g (bind k f)
  | Await r k => Await r (fun x => bind (k x) f)
  end.

Fixpoint try_catch {A : Type} (m : async A) (h : string -> async A) : async A :=
  match m with
  | Return a => Return a
  | Throw message => h message
  | Setter g k => Setter g (try_catch k h)
  | Await r k => Await r (fun x => try_catch (k x) h)
  end.

(** [try { m } finally { f }]: [f] runs however [m] ends, and the
    completion of [m] stands unless [f] throws. *)
Fixpoint try_finally {A : Type} (m : async A) (f : async unit) : async A :=
  match m with
  | Return a => bind f (fun _ => Return a)
  | Throw message => bind f (fun _ => Throw message)
  | Setter g k => Setter g (try_finally k f)
  | Await r k => Await r (fun x => try_finally (k x) f)
  end.

Definition call (f : State -> State) : async unit := Setter f (Return tt).

Definition fetch (r : request)
  : async (response (failure_body r) (success_body r)) :=
  Await r (fun answer =>
    match answer with
    | Rejected message => Throw message
    | Resolved resp => Return resp
    end).

Definition json {B : Type} (j : settled B) : async B :=
  match j with
  | Rejects message => Throw message
  | Fulfils b => Return b
  end.

Fixpoint exec {A : Type} (env : environment) (m : async A) (s : State)
  : list request * State * completion A :=
  match m with
  | Return a => ([], s, Returns a)
  | Throw message => ([], s, Throws message)
  | Setter f k => exec env k (f s)
  | Await r k =>
      let '(calls, s', c) := exec env (k (env r)) s in
      (r :: calls, s', c)
  end.

Definition calls {A : Type} (env : environment) (m : async A) (s : State)
  : list request := fst (fst (exec env m s)).

Definition final {A : Type} (env : environment) (m : async A) (s : State)
  : State := snd (fst (exec env m s)).

Definition outcome {A : Type} (env : environment) (m : async A) (s : State)
  : completion A := snd (exec env m s).

(** [buildDeck], whose closure holds the hook values [state] of its
    render.  The source parses the body before it tests [response.ok];
    here the parse is written in each branch of the test, with the body
    typed after the branch. *)
Definition buildDeck (state : State) : async unit :=
  try_finally
    (try_catch
       (bind (call (setLoading true)) (fun _ =>
        bind (call (setError "")) (fun _ =>
        bind (fetch (BuildDeck (format state) (cardList state)
                       (commander state) (partnerCommander state)
                       (deckGoal state))) (fun response =>
        match response with
        | NotOk j =>
            bind (json j) (fun data =>
            Throw (error_message (ErrorBody.error data)))
        | Ok j =>
            bind (json j) (fun data =>
            call (setDeck data))
        end))))
       (fun message => call (setError message)))
    (call (setLoading false)).

(** The button is disabled while loading or without commander or cards. *)
Definition disabled (s : State) : bool :=
  loading s || negb (truthy (commander s)) || negb (truthy (cardList s)).

(** The alert is rendered for a truthy [error] only. *)
Definition alert (s : State) : option string :=
  if truthy (error s) then Some (error s) else None.

End Variant.

(** ** Further vocabulary *)

(** All list items on display, section after section. *)
Definition shown_items (children : list (option Section)) : list Li :=
  flat_map ul (displayed children).

(** The card's type contains the keyword of some category. *)
Definition categorised (c : card) : bool :=
  match category_of c with
  | Some _ => true
  | None => false
  end.

(** Requests of a whole session: the events handled one after the other
    from [s], each against its own behaviour of the service. *)
Fixpoint session_calls (steps : list (environment * event)) (s : State)
  : list request :=
  match steps with
  | [] => []
  | (env, ev) :: steps' =>
      calls env (handler s ev) s ++ session_calls steps' (dispatch env ev s)
  end.

(** Whether every event of a session is offered when it is handled. *)
Fixpoint session_offered (steps : list (environment * event)) (s : State)
  : bool :=
  match steps with
  | [] => true
  | (env, ev) :: steps' =>
      offered s ev && session_offered steps' (dispatch env ev s)
  end.

(** A service that rejects every connection. *)
Definition offline : environment :=
  fun r =>
    match r return reply r with
    | ValidateCommander _ _ => Rejected "Failed to fetch"
    | CheckPartner _ _ => Rejected "Failed to fetch"
    | BuildDeck _ _ _ _ _ => Rejected "Failed to fetch"
    end.


(** A filled-in form of the other component. *)
Definition variant_form : Variant.State :=
  {| Variant.commander := "Atraxa";
     Variant.partnerCommander := "";
     Variant.cardList := "1x Bolt";
     Variant.deckGoal := "Control";
     Variant.format := "modern";
     Variant.loading := false;
     Variant.error := "";
     Variant.deck := None |}.


(** ... the session that built a deck, then a second click on the button,
    answered by a service that fails. *)
Definition rebuilt : State :=
  dispatch failing_service BuildDeckClick built.

(** A service that answers every request with status 400 and an empty
    error text. *)
Definition terse_service : environment :=
  fun r =>
    match r return reply r with
    | ValidateCommander _ _ =>
        Resolved (NotOk (Fulfils {| ErrorBody.error := Some "" |}))
    | CheckPartner _ _ =>
        Resolved (NotOk (Fulfils
          {| PartnerBody.is_compatible := false;
             PartnerBody.reason := Some "" |}))
    | BuildDeck _ _ _ _ _ =>
        Resolved (NotOk (Fulfils {| ErrorBody.error := Some "" |}))
    end.

(** ** Proof automation *)

(** Split on what the service answers. *)
Ltac answer :=
  match goal with
  | |- context [match ?env ?r with _ => _ end] =>
      match type of env with environment => destruct (env r) end
  | |- context [json ?j] => is_var j; destruct j
  | |- context [body ?r] => is_var r; destruct r
  | |- context [match ?x with _ => _ end] =>
      match type of x with
      | response _ _ => destruct x
      | settled _ => destruct x
      end
  end.

(** Split on every test the handler makes along its run. *)
Ltac branch :=
  match goal with
  | |- context [if negb (truthy ?x) then _ else _] => destruct (truthy x)
  | |- context [if negb (PartnerBody.is_compatible ?p) then _ else _] =>
      destruct (PartnerBody.is_compatible p)
  | _ => answer
  end.

Ltac run_event ev :=
  destruct ev as [f | [[[m | t]] | ] | v | v [|] | v | ];
  unfold dispatch, handler, final,
    handleFormatChange, handleFileUpload, handleCommanderInput,
    handleBuildDeck, handleCardListChange, handleDeckGoalChange;
  cbn -[String.append truthy];
  repeat (branch; cbn -[String.append truthy]).

(** A session is a sequence of offered events from the initial state. *)
Ltac session :=
  unfold switched, built, commanded, listed, picked;
  repeat match goal with
         | |- ui_reachable (dispatch _ _ _) =>
             apply ui_reachable_dispatch; [|reflexivity]
         end;
  apply ui_reachable_init.

(** * Properties *)

(** ** Strings *)

Lemma prefix_iff (p s : string) :
  prefix p s = true <-> exists post, s = (p ++ post)%string.
Proof.
  revert s; induction p as [|a p IH]; intros s.
  - destruct s; simpl; split; eauto.
  - destruct s as [|b s]; simpl.
    + split; [discriminate | intros [post H]; discriminate].
    + destruct (ascii_dec a b) as [->|Hne].
      * rewrite IH. split; intros [post H]; exists post;
          [now rewrite H | now inversion H].
      * split; [discriminate | intros [post H]; inversion H; congruence].
Qed.

Lemma includes_iff (s sub : string) :
  includes s sub = true <-> exists pre post, s = (pre ++ sub ++ post)%string.
Proof.
  induction s as [|c s IH]; cbn [includes].
  - rewrite orb_false_r, prefix_iff. split.
    + intros [post H]. now exists "", post.
    + intros [pre [post H]]. destruct pre; [now exists post | discriminate].
  - rewrite orb_true_iff, prefix_iff, IH. split.
    + intros [[post H] | [pre [post H]]].
      * now exists "", post.
      * exists (String c pre), post. simpl. now rewrite H.
    + intros [pre [post H]]. destruct pre as [|a pre]; simpl in H.
      * left. now exists post.
      * right. inversion H. now exists pre, post.
Qed.

Lemma toLowerCase_app (a b : string) :
  toLowerCase (a ++ b) = (toLowerCase a ++ toLowerCase b)%string.
Proof. induction a; simpl; congruence. Qed.

Lemma toLowerCase_split (s a b : string) :
  toLowerCase s = (a ++ b)%string ->
  exists a' b', s = (a' ++ b')%string /\ toLowerCase a' = a /\ toLowerCase b' = b.
Proof.
  revert s; induction a as [|c a IH]; intros s H.
  - now exists "", s.
  - destruct s as [|d s]; [discriminate|].
    simpl in H. inversion H as [[Hc Hs]].
    destruct (IH s Hs) as [a' [b' [E [Ea Eb]]]].
    exists (String d a'), b'. simpl. repeat split; congruence.
Qed.

(** [matches] is a case-insensitive substring test: some substring of the
    type is the keyword once its letters are lowered. *)
Lemma matches_iff (c : card) (keyword : string) :
  matches c keyword = true <->
  exists pre mid post,
    type c = (pre ++ mid ++ post)%string /\ toLowerCase mid = keyword.
Proof.
  unfold matches. rewrite includes_iff. split.
  - intros [pre [post H]].
    destruct (toLowerCase_split _ _ _ H) as [pre' [rest [E [_ Hrest]]]].
    destruct (toLowerCase_split _ _ _ Hrest) as [mid [post' [E' [Hmid _]]]].
    exists pre', mid, post'. now rewrite E, E'.
  - intros [pre [mid [post [E Hmid]]]].
    exists (toLowerCase pre), (toLowerCase post).
    now rewrite E, !toLowerCase_app, Hmid.
Qed.

(** ** Categorisation *)

(** [category_of] is the [if]/[else if] chain of the [forEach] callback. *)
Lemma category_of_chain (c : card) :
  category_of c =
  if matches c "creature" then Some "Creatures"
  else if matches c "instant" then Some "Instants"
  else if matches c "sorcery" then Some "Sorceries"
  else if matches c "artifact" then Some "Artifacts"
  else if matches c "enchantment" then Some "Enchantments"
  else if matches c "planeswalker" then Some "Planeswalkers"
  else if matches c "land" then Some "Lands"
  else None.
Proof.
  unfold category_of, type_categories. cbn [find snd].
  repeat (destruct (matches c _); [reflexivity|]). reflexivity.
Qed.

(** A type that names two categories goes to the earlier one. *)
Example artifact_creature_is_a_creature :
  category_of {| name := "Steel Golem"; type := "Artifact Creature";
                 cmc := Some 3%Z |} = Some "Creatures".
Proof. reflexivity. Qed.

Example planeswalker_is_not_a_land :
  category_of {| name := "Wanderer"; type := "Legendary PLANESWALKER";
                 cmc := Some 4%Z |} = Some "Planeswalkers".
Proof. reflexivity. Qed.

Example battle_is_dropped :
  category_of {| name := "Invasion"; type := "Battle"; cmc := Some 2%Z |}
  = None.
Proof. reflexivity. Qed.

Lemma cards_in_cons (category : string) (c : card) (l : list card) :
  cards_in category (c :: l) =
  match category_of c with
  | Some k => if k =? category then c :: cards_in category l
              else cards_in category l
  | None => cards_in category l
  end.
Proof. unfold cards_in. cbn [filter]. destruct (category_of c); reflexivity. Qed.

(** The [forEach] appends to each array the cards of its category, in
    input order, and leaves the Commander and Partner arrays alone. *)
Lemma forEach_categorize (l : list card) :
  forall (cmd par b1 b2 b3 b4 b5 b6 b7 : list (option card)),
  fold_left categorize l
    [ ("Commander", cmd); ("Partner", par); ("Creatures", b1);
      ("Instants", b2); ("Sorceries", b3); ("Artifacts", b4);
      ("Enchantments", b5); ("Planeswalkers", b6); ("Lands", b7) ] =
    [ ("Commander", cmd); ("Partner", par);
      ("Creatures", b1 ++ map Some (cards_in "Creatures" l));
      ("Instants", b2 ++ map Some (cards_in "Instants" l));
      ("Sorceries", b3 ++ map Some (cards_in "Sorceries" l));
      ("Artifacts", b4 ++ map Some (cards_in "Artifacts" l));
      ("Enchantments", b5 ++ map Some (cards_in "Enchantments" l));
      ("Planeswalkers", b6 ++ map Some (cards_in "Planeswalkers" l));
      ("Lands", b7 ++ map Some (cards_in "Lands" l)) ].
Proof.
  induction l as [|c l IH]; intros.
  - cbn. now rewrite !app_nil_r.
  - cbn [fold_left]. rewrite !cards_in_cons, category_of_chain.
    unfold categorize. fold (matches c "creature") (matches c "instant")
      (matches c "sorcery") (matches c "artifact") (matches c "enchantment")
      (matches c "planeswalker") (matches c "land").
    repeat (destruct (matches c _);
            [ cbn; rewrite IH, <- ?app_assoc; reflexivity | ]).
    cbn. now rewrite IH.
Qed.

(** ** Rendering *)

Lemma array_map_renderCard (l : list card) (i : nat) :
  array_map renderCard i (map Some l) = Returns (items_from i l).
Proof.
  revert i; induction l as [|c l IH]; intros i; cbn; [reflexivity|].
  now rewrite IH.
Qed.

(** A category whose array holds card objects only renders without
    throwing: a section, or [false] when the array is empty. *)
Lemma renderCategory_cards (category : string) (l : list card) (i : nat) :
  renderCategory (category, map Some l) i = Returns (child_of category l).
Proof.
  unfold renderCategory. rewrite length_map.
  destruct l as [|c l]; [reflexivity|].
  cbn [length Nat.ltb Nat.leb]. rewrite array_map_renderCard. reflexivity.
Qed.

Lemma array_map_renderCategory {X : Type} (key : X -> string)
    (arr : X -> list card) (xs : list X) (i : nat) :
  array_map renderCategory i (map (fun x => (key x, map Some (arr x))) xs) =
  Returns (map (fun x => child_of (key x) (arr x)) xs).
Proof.
  revert i; induction xs as [|x xs IH]; intros i;
    cbn [map array_map]; [reflexivity|].
  now rewrite renderCategory_cards, IH.
Qed.

Lemma displayed_child_of {X : Type} (key : X -> string)
    (arr : X -> list card) (xs : list X) :
  displayed (map (fun x => child_of (key x) (arr x)) xs) =
  flat_map (fun x => section_if_any (key x) (arr x)) xs.
Proof.
  induction xs as [|x xs IH]; [reflexivity|].
  unfold displayed in *. cbn [map flat_map]. rewrite IH.
  now destruct (arr x).
Qed.

(** The arrays of [categorizedCards] in closed form. *)
Lemma categorizedCards_closed (d : BuiltDeck) :
  categorizedCards d =
  ("Commander", [commander d]) ::
  ("Partner", map Some (optional (partner d))) ::
  map (fun entry => (fst entry, map Some (cards_in (fst entry) (cards d))))
      type_categories.
Proof.
  unfold categorizedCards. rewrite forEach_categorize.
  destruct (partner d); reflexivity.
Qed.

(** With a commander object in the result, [renderDeckList] returns one
    child per category. *)
Lemma renderDeckList_children (s : State) (d : BuiltDeck) (c : card) :
  result s = Some d -> commander d = Some c ->
  renderDeckList s =
  Returns (Some (
    Some (section_of "Commander" [c]) ::
    child_of "Partner" (optional (partner d)) ::
    map (fun entry => child_of (fst entry) (cards_in (fst entry) (cards d)))
        type_categories)).
Proof.
  intros Hr Hc. unfold renderDeckList. rewrite Hr, categorizedCards_closed, Hc.
  change [Some c] with (map Some [c]).
  cbn [array_map]. rewrite !renderCategory_cards.
  rewrite (array_map_renderCategory fst
             (fun entry => cards_in (fst entry) (cards d))).
  reflexivity.
Qed.

Lemma find_earliest {X : Type} (f : X -> bool) (l : list X) (x : X) :
  find f l = Some x <->
  exists earlier later,
    l = earlier ++ x :: later /\ f x = true /\
    forall y, In y earlier -> f y = false.
Proof.
  induction l as [|a l IH]; cbn [find].
  - split; [discriminate | intros [[|? ?] [? [? _]]]; discriminate].
  - destruct (f a) eqn:Ha.
    + split.
      * intros [= <-]. exists [], l. repeat split; [assumption | intros ? []].
      * intros [[|b earlier] [later [E [Hx Hearlier]]]]; inversion E; subst.
        -- reflexivity.
        -- rewrite (Hearlier b (or_introl eq_refl)) in Ha. discriminate.
    + rewrite IH. split.
      * intros [earlier [later [E [Hx Hearlier]]]].
        exists (a :: earlier), later. subst l. repeat split; [assumption|].
        intros y [<- | Hy]; [assumption | now apply Hearlier].
      * intros [[|b earlier] [later [E [Hx Hearlier]]]]; inversion E; subst.
        -- congruence.
        -- exists earlier, later. repeat split; [assumption|].
           intros y Hy. apply Hearlier. now right.
Qed.

Lemma find_none {X : Type} (f : X -> bool) (l : list X) :
  find f l = None <-> forall y, In y l -> f y = false.
Proof.
  induction l as [|a l IH]; cbn [find].
  - split; [intros _ ? [] | reflexivity].
  - destruct (f a) eqn:Ha.
    + split; [discriminate|]. intros H. rewrite (H a (or_introl eq_refl)) in Ha.
      discriminate.
    + rewrite IH. split.
      * intros H y [<- | Hy]; [assumption | now apply H].
      * intros H y Hy. apply H. now right.
Qed.

(** A card is put in [category] exactly when the keyword of [category]
    is the first, in the order of [type_categories], that its type
    contains. *)
Lemma category_of_earliest (c : card) (k : string) :
  category_of c = Some k <->
  exists earlier keyword later,
    type_categories = earlier ++ (k, keyword) :: later /\
    matches c keyword = true /\
    forall e, In e earlier -> matches c (snd e) = false.
Proof.
  unfold category_of. split.
  - destruct (find _ type_categories) as [[k' keyword]|] eqn:E; [|discriminate].
    intros [= <-]. apply find_earliest in E.
    destruct E as [earlier [later H]]. now exists earlier, keyword, later.
  - intros [earlier [keyword [later [E [Hm He]]]]].
    assert (H : find (fun entry => matches c (snd entry)) type_categories
                = Some (k, keyword)).
    { apply find_earliest. now exists earlier, later. }
    now rewrite H.
Qed.

Lemma category_of_none (c : card) :
  category_of c = None <->
  forall e, In e type_categories -> matches c (snd e) = false.
Proof.
  unfold category_of. rewrite <- find_none.
  destruct (find _ type_categories); cbn; split; congruence.
Qed.

Lemma cards_in_iff (k : string) (l : list card) (c : card) :
  In c (cards_in k l) <-> In c l /\ category_of c = Some k.
Proof.
  unfold cards_in. rewrite filter_In.
  destruct (category_of c) as [k'|]; [|intuition discriminate].
  destruct (String.eqb_spec k' k); [subst; tauto|].
  intuition congruence.
Qed.

(** C1, amended.  For every deck, [renderDeckList] puts every card of
    [cards] in the array of the earliest category, in the order Creatures,
    Instants, Sorceries, Artifacts, Enchantments, Planeswalkers, Lands,
    whose keyword occurs in the card's type regardless of letter case, and
    in no array when no keyword occurs; the Commander and Partner arrays
    are not filled from [cards].  Each array keeps the input order.  For
    every deck that carries a commander object, the output shows the
    sections in the fixed category order, without those that have no
    card. *)
Theorem renderDeckList_categorizes (d : BuiltDeck) :
  categorizedCards d =
    ("Commander", [commander d]) ::
    ("Partner", map Some (optional (partner d))) ::
    map (fun entry => (fst entry, map Some (cards_in (fst entry) (cards d))))
        type_categories
  /\ (forall c k,
        In c (cards_in k (cards d)) <->
        In c (cards d) /\ category_of c = Some k)
  /\ (forall c k,
        category_of c = Some k <->
        exists earlier keyword later,
          type_categories = earlier ++ (k, keyword) :: later /\
          matches c keyword = true /\
          forall e, In e earlier -> matches c (snd e) = false)
  /\ (forall c,
        category_of c = None <->
        forall e, In e type_categories -> matches c (snd e) = false)
  /\ (forall c keyword,
        matches c keyword = true <->
        exists pre mid post,
          type c = (pre ++ mid ++ post)%string /\ toLowerCase mid = keyword)
  /\ (forall k l1 l2,
        cards_in k (l1 ++ l2) = cards_in k l1 ++ cards_in k l2)
  /\ (forall s c,
        result s = Some d -> commander d = Some c ->
        exists children,
          renderDeckList s = Returns (Some children) /\
          displayed children =
            section_of "Commander" [c] ::
            section_if_any "Partner" (optional (partner d)) ++
            flat_map (fun entry =>
                        section_if_any (fst entry)
                          (cards_in (fst entry) (cards d)))
                     type_categories).
Proof.
  split; [apply categorizedCards_closed|].
  split; [intros c k; apply cards_in_iff|].
  split; [apply category_of_earliest|].
  split; [apply category_of_none|].
  split; [apply matches_iff|].
  split; [intros k l1 l2; apply filter_app|].
  intros s c Hr Hc. eexists. split; [apply (renderDeckList_children s d c Hr Hc)|].
  unfold displayed. cbn [flat_map]. fold (displayed
    (map (fun entry => child_of (fst entry) (cards_in (fst entry) (cards d)))
         type_categories)).
  rewrite (displayed_child_of fst (fun entry => cards_in (fst entry) (cards d))).
  destruct (partner d); reflexivity.
Qed.

(** The deck of Bolt and Bear under Atraxa shows Commander (1),
    Creatures (1), Instants (1), in that order. *)
Lemma renderDeckList_categorizes_sample :
  exists children,
    renderDeckList (showing sample_deck) = Returns (Some children) /\
    displayed children =
      [ section_of "Commander" [atraxa];
        section_of "Creatures" [bear];
        section_of "Instants" [bolt] ].
Proof.
  destruct (renderDeckList_categorizes sample_deck) as (_ & _ & _ & _ & _ & _ & H).
  exact (H (showing sample_deck) atraxa eq_refl eq_refl).
Defined.

(** A deck without commander: its Bear is a creature and goes to the
    Creatures array, but the call throws while it renders the Commander
    section, so there is no output and the card is in no category of
    it. *)
Lemma categorized_card_without_output :
  result (showing headless_deck) = Some headless_deck
  /\ In bear (cards headless_deck)
  /\ category_of bear = Some "Creatures"
  /\ In ("Creatures", [Some bear]) (categorizedCards headless_deck)
  /\ ~ (exists children,
         renderDeckList (showing headless_deck) = Returns (Some children))
  /\ ~ (exists children section,
         renderDeckList (showing headless_deck) = Returns (Some children)
         /\ In section (displayed children)
         /\ category section = "Creatures").
Proof.
  split; [reflexivity|]. split; [left; reflexivity|].
  split; [reflexivity|]. split; [cbn; auto|]. split.
  - intros [children H]. discriminate H.
  - intros (children & section & H & _). discriminate H.
Qed.

(** Sections rendered from [cards] carry the title of a type category. *)
Lemma type_section_title (l : list card) (section : Section) :
  In section
     (flat_map (fun entry =>
                  section_if_any (fst entry) (cards_in (fst entry) l))
               type_categories) ->
  In (category section) (map fst type_categories).
Proof.
  rewrite in_flat_map. intros [entry [Hentry Hsec]].
  unfold section_if_any in Hsec.
  destruct (cards_in (fst entry) l); [contradiction|].
  destruct Hsec as [<- | []]. cbn [section_of category]. now apply in_map.
Qed.

(** With [commander] absent the call throws: there is no output, hence no
    Commander section. *)
Lemma renderDeckList_headless :
  result (showing headless_deck) <> None /\
  renderDeckList (showing headless_deck) =
    Throws "Cannot read properties of undefined (reading 'name')" /\
  ~ shows_commander_section (showing headless_deck).
Proof.
  split; [discriminate|]. split; [reflexivity|].
  intros (children & section & H & _). discriminate H.
Qed.

(** C10, amended.  When the result carries a commander object, the output
    of [renderDeckList] begins with a Commander section that has exactly
    one entry, the commander, and it has a Partner section if and only if
    the result carries a partner. *)
Theorem renderDeckList_commander_section (s : State) (d : BuiltDeck) (c : card) :
  result s = Some d -> commander d = Some c ->
  exists rest,
    renderDeckList s =
      Returns (Some (Some {| category := "Commander";
                             h3 := "Commander (1)";
                             ul := [li_of c 0] |} :: rest))
    /\ shows_commander_section s
    /\ (has_section "Partner" rest <-> partner d <> None).
Proof.
  intros Hr Hc. pose proof (renderDeckList_children s d c Hr Hc) as H.
  eexists. split; [exact H|]. split.
  - eexists _, _. split; [exact H|]. split; [left; reflexivity|].
    split; reflexivity.
  - unfold has_section, displayed. cbn [flat_map].
    fold (displayed
      (map (fun entry => child_of (fst entry) (cards_in (fst entry) (cards d)))
           type_categories)).
    rewrite (displayed_child_of fst (fun entry => cards_in (fst entry) (cards d))).
    split.
    + intros [section [Hin Htitle]]. destruct (partner d); [discriminate|].
      cbn [optional child_of app] in Hin.
      apply type_section_title in Hin. rewrite Htitle in Hin.
      cbn in Hin. intuition discriminate.
    + intros Hp. destruct (partner d) as [p|]; [|contradiction].
      exists (section_of "Partner" [p]). split; [left|]; reflexivity.
Qed.

Lemma renderDeckList_commander_section_sample :
  exists rest,
    renderDeckList (showing sample_deck) =
      Returns (Some (Some {| category := "Commander";
                             h3 := "Commander (1)";
                             ul := [li_of atraxa 0] |} :: rest))
    /\ shows_commander_section (showing sample_deck)
    /\ (has_section "Partner" rest <-> partner sample_deck <> None).
Proof.
  exact (renderDeckList_commander_section
           (showing sample_deck) sample_deck atraxa eq_refl eq_refl).
Defined.

(** ** Handlers *)

(** What selecting a format does, in any state. *)
Lemma handleFormatChange_effect (s : State) (f : string) (env : environment) :
  dispatch env (FormatChange f) s =
  {| step := 2; format := f; cardList := cardList s;
     useCommander := (f =? "commander"); commanderName := "";
     partnerCommander := ""; deckGoal := deckGoal s;
     loading := loading s; error := error s; result := result s;
     hasPartnerAbility := hasPartnerAbility s |}.
Proof. reflexivity. Qed.

(** C8. Entering an empty commander name, as commander or as partner,
    issues no request and ends with [hasPartnerAbility] and [loading]
    false. *)
Theorem empty_commander_short_circuits (state : State) (isPartner : bool)
    (env : environment) :
  calls env (handleCommanderInput state "" isPartner) state = []
  /\ hasPartnerAbility (final env (handleCommanderInput state "" isPartner) state)
     = false
  /\ loading (final env (handleCommanderInput state "" isPartner) state)
     = false.
Proof. split; [reflexivity | split; reflexivity]. Qed.

(** C7. With an empty [cardList], submitting issues no request, sets
    [error] to the fixed message and changes no other field. *)
Theorem build_without_card_list (state : State) (env : environment) :
  cardList state = "" ->
  calls env (handleBuildDeck state) state = []
  /\ final env (handleBuildDeck state) state =
     {| step := step state; format := format state;
        cardList := cardList state; useCommander := useCommander state;
        commanderName := commanderName state;
        partnerCommander := partnerCommander state;
        deckGoal := deckGoal state; loading := loading state;
        error := Some "Please provide a card list";
        result := result state;
        hasPartnerAbility := hasPartnerAbility state |}.
Proof.
  intros H.
  assert (E : negb (truthy (cardList state)) = true) by now rewrite H.
  unfold calls, final, handleBuildDeck. rewrite E.
  split; reflexivity.
Qed.

Lemma build_without_card_list_initially :
  cardList initialState = ""
  /\ calls failing_service (handleBuildDeck initialState) initialState = []
  /\ error (final failing_service (handleBuildDeck initialState) initialState)
     = Some "Please provide a card list".
Proof.
  split; [reflexivity|].
  destruct (build_without_card_list initialState failing_service eq_refl)
    as [Hcalls Hfinal].
  split; [exact Hcalls | now rewrite Hfinal].
Defined.

(** C6. When the validation of a non-empty commander name fails, the
    handler ends with [commanderName] empty, [loading] false and [error]
    the prefix followed by the failure detail. *)
Theorem commander_validation_failure (state : State) (name : string)
    (env : environment) (detail : string) :
  name <> "" ->
  fails "Invalid commander name" (env (ValidateCommander name false)) detail ->
  let s' := final env (handleCommanderInput state name false) state in
  commanderName s' = ""
  /\ loading s' = false
  /\ error s' = Some ("Error validating commander: " ++ detail)%string.
Proof.
  intros Hname Hfails s'. subst s'.
  apply String.eqb_neq in Hname.
  unfold final, handleCommanderInput, truthy. rewrite Hname.
  cbn -[String.append].
  inversion Hfails as [m E | e text He Ht E | e [He | He] E | m E | m E];
    cbn -[String.append]; try rewrite He; cbn -[String.append];
    try (apply String.eqb_neq in Ht; unfold truthy; rewrite Ht);
    repeat split.
Qed.

Lemma commander_validation_failure_default :
  let s' := final failing_service
              (handleCommanderInput listed "Storm Crow" false) listed in
  commanderName s' = ""
  /\ loading s' = false
  /\ error s' = Some "Error validating commander: Invalid commander name".
Proof.
  apply (commander_validation_failure listed "Storm Crow" failing_service
           "Invalid commander name").
  - discriminate.
  - apply fails_status_default. left; reflexivity.
Defined.

(** The state after a failed build. *)
Lemma build_failure_frame (state : State) (env : environment)
    (detail : string) :
  cardList state <> "" ->
  fails "Error building deck"
    (env (BuildDeck (format state) (cardList state) (commanderName state)
            (partnerCommander state) (deckGoal state))) detail ->
  final env (handleBuildDeck state) state =
  {| step := step state; format := format state;
     cardList := cardList state; useCommander := useCommander state;
     commanderName := commanderName state;
     partnerCommander := partnerCommander state;
     deckGoal := deckGoal state; loading := false;
     error := Some ("Error building deck: " ++ detail)%string;
     result := result state;
     hasPartnerAbility := hasPartnerAbility state |}.
Proof.
  intros Hlist Hfails. apply String.eqb_neq in Hlist.
  unfold final, handleBuildDeck, truthy. rewrite Hlist.
  cbn -[String.append].
  inversion Hfails as [m E | e text He Ht E | e [He | He] E | m E | m E];
    cbn -[String.append]; try rewrite He; cbn -[String.append];
    try (apply String.eqb_neq in Ht; unfold truthy; rewrite Ht);
    reflexivity.
Qed.

(** C9, amended.  When the build request of a state with a non-empty
    [cardList] fails, the handler ends with [error] the prefix followed by
    the failure detail and [loading] false; [result] and every other field
    are as before the submission.  So the deck list rendered afterwards is
    the one rendered before: none if [result] was null, and otherwise the
    deck of the earlier build, which stays on display. *)
Theorem build_failure (state : State) (env : environment) (detail : string) :
  cardList state <> "" ->
  fails "Error building deck"
    (env (BuildDeck (format state) (cardList state) (commanderName state)
            (partnerCommander state) (deckGoal state))) detail ->
  let s' := final env (handleBuildDeck state) state in
  error s' = Some ("Error building deck: " ++ detail)%string
  /\ loading s' = false
  /\ result s' = result state
  /\ format s' = format state
  /\ cardList s' = cardList state
  /\ commanderName s' = commanderName state
  /\ partnerCommander s' = partnerCommander state
  /\ deckGoal s' = deckGoal state
  /\ step s' = step state
  /\ useCommander s' = useCommander state
  /\ hasPartnerAbility s' = hasPartnerAbility state
  /\ renderDeckList s' = renderDeckList state
  /\ (result state = None -> renderDeckList s' = Returns None)
  /\ (forall d, result state = Some d -> result s' = Some d).
Proof.
  intros Hlist Hfails s'. subst s'.
  rewrite (build_failure_frame state env detail Hlist Hfails).
  cbn [error loading result format cardList commanderName partnerCommander
       deckGoal step useCommander hasPartnerAbility].
  do 11 (split; [reflexivity|]).
  split; [reflexivity|]. split.
  - intros Hnone. unfold renderDeckList. cbn [result]. now rewrite Hnone.
  - intros d Hd. exact Hd.
Qed.

Lemma build_failure_default :
  let s' := final failing_service (handleBuildDeck commanded) commanded in
  error s' = Some "Error building deck: Error building deck"
  /\ loading s' = false
  /\ result s' = result commanded
  /\ format s' = format commanded
  /\ cardList s' = cardList commanded
  /\ commanderName s' = commanderName commanded
  /\ partnerCommander s' = partnerCommander commanded
  /\ deckGoal s' = deckGoal commanded
  /\ step s' = step commanded
  /\ useCommander s' = useCommander commanded
  /\ hasPartnerAbility s' = hasPartnerAbility commanded
  /\ renderDeckList s' = renderDeckList commanded
  /\ (result commanded = None -> renderDeckList s' = Returns None)
  /\ (forall d, result commanded = Some d -> result s' = Some d).
Proof.
  apply (build_failure commanded failing_service "Error building deck").
  - discriminate.
  - apply fails_status_default. left; reflexivity.
Defined.

(** The incompatibility reason reaches [error] behind the prefix of the
    [catch] block, not as it came from the service. *)
Lemma partner_incompatibility_prefixed :
  let s' := final picky_service
              (handleCommanderInput commanded "Thrasios" true) commanded in
  commanderName commanded <> ""
  /\ picky_service (ValidateCommander "Thrasios" true) =
     Resolved (Ok (Fulfils {| ValidateBody.has_partner := true |}))
  /\ picky_service (CheckPartner (commanderName commanded) "Thrasios") =
     Resolved (Ok (Fulfils
       {| PartnerBody.is_compatible := false;
          PartnerBody.reason := Some "Both commanders need Partner" |}))
  /\ partnerCommander s' = ""
  /\ error s' =
     Some "Error validating commander: Both commanders need Partner"
  /\ ~ (partnerCommander s' = "" /\
        error s' = Some "Both commanders need Partner").
Proof.
  cbv zeta. split; [discriminate|].
  do 4 (split; [reflexivity|]).
  intros [_ H]. discriminate H.
Qed.

(** C2, amended.  When the validation of a non-empty partner name succeeds
    and [/check-partner] then answers with [is_compatible] false and a
    reason, the handler ends with [partnerCommander] empty and [error] the
    prefix ["Error validating commander: "] followed by that reason. *)
Theorem partner_incompatibility (state : State) (name : string)
    (env : environment) (v : ValidateBody.t)
    (r : response PartnerBody.t PartnerBody.t) (p : PartnerBody.t)
    (reason : string) :
  name <> "" ->
  env (ValidateCommander name true) = Resolved (Ok (Fulfils v)) ->
  env (CheckPartner (commanderName state) name) = Resolved r ->
  body r = Fulfils p ->
  PartnerBody.is_compatible p = false ->
  PartnerBody.reason p = Some reason ->
  let s' := final env (handleCommanderInput state name true) state in
  partnerCommander s' = ""
  /\ error s' = Some ("Error validating commander: " ++ reason)%string
  /\ loading s' = false.
Proof.
  intros Hname Hv Hr Hbody Hcompat Hreason s'. subst s'.
  apply String.eqb_neq in Hname.
  unfold final, handleCommanderInput, truthy. rewrite Hname.
  cbn -[String.append]. rewrite Hv. cbn -[String.append].
  rewrite Hr. cbn -[String.append]. rewrite Hbody. cbn -[String.append].
  rewrite Hcompat, Hreason. repeat split.
Qed.

Lemma partner_incompatibility_sample :
  let s' := final picky_service
              (handleCommanderInput commanded "Thrasios" true) commanded in
  partnerCommander s' = ""
  /\ error s' =
     Some "Error validating commander: Both commanders need Partner"
  /\ loading s' = false.
Proof.
  apply (partner_incompatibility commanded "Thrasios" picky_service
           {| ValidateBody.has_partner := true |}
           (Ok (Fulfils {| PartnerBody.is_compatible := false;
                           PartnerBody.reason :=
                             Some "Both commanders need Partner" |}))
           {| PartnerBody.is_compatible := false;
              PartnerBody.reason := Some "Both commanders need Partner" |}
           "Both commanders need Partner");
    first [discriminate | reflexivity].
Defined.

(** ** The workflow *)

Lemma ui_reachable_reachable (s : State) : ui_reachable s -> reachable s.
Proof. induction 1; constructor; assumption. Qed.

(** A handled event leaves [step] and [result] alone, or sets [step] to 2
    and leaves [result] alone, or sets [step] to 4. *)
Lemma dispatch_step_result (env : environment) (ev : event) (s : State) :
  (step (dispatch env ev s) = step s /\ result (dispatch env ev s) = result s)
  \/ (step (dispatch env ev s) = 2%Z /\ result (dispatch env ev s) = result s)
  \/ step (dispatch env ev s) = 4%Z.
Proof. run_event ev; auto. Qed.


(** A submission ends with [loading] false when it passes the guard, and
    with [loading] as it was when it does not. *)
Lemma handleBuildDeck_loading (env : environment) (state : State) :
  loading (final env (handleBuildDeck state) state) =
  if truthy (cardList state) then false else loading state.
Proof.
  unfold final, handleBuildDeck.
  destruct (truthy (cardList state)); cbn -[String.append truthy];
    repeat (branch; cbn -[String.append truthy]); reflexivity.
Qed.

(** No handler ends with an unhandled rejection. *)
Lemma handler_completes (env : environment) (ev : event) (s : State) :
  outcome env (handler s ev) s = Returns tt.
Proof.
  destruct ev as [f | [[[m | t]] | ] | v | v [|] | v | ];
    unfold outcome, handler,
      handleFormatChange, handleFileUpload, handleCommanderInput,
      handleBuildDeck, handleCardListChange, handleDeckGoalChange;
    cbn -[String.append truthy];
    repeat (branch; cbn -[String.append truthy]); reflexivity.
Qed.

Lemma dispatch_loading (env : environment) (ev : event) (s : State) :
  loading s = false -> loading (dispatch env ev s) = false.
Proof. intros H. run_event ev; auto. Qed.

(** Between two events nothing is in flight. *)
Lemma reachable_loading (s : State) : reachable s -> loading s = false.
Proof.
  induction 1 as [|s ev env _ IH]; [reflexivity|]. now apply dispatch_loading.
Qed.

Lemma ui_reachable_commanded : ui_reachable commanded.
Proof. session. Qed.

Lemma ui_reachable_built : ui_reachable built.
Proof. session. Qed.

Lemma ui_reachable_switched : ui_reachable switched.
Proof. session. Qed.




(** A failed rebuild leaves the deck of the earlier build on display,
    beside the error: the old result is still rendered, stale. *)
Lemma stale_result_beside_error :
  ui_reachable built
  /\ offered built BuildDeckClick = true
  /\ cardList built <> ""
  /\ fails "Error building deck"
       (failing_service
          (BuildDeck (format built) (cardList built) (commanderName built)
             (partnerCommander built) (deckGoal built)))
       "Error building deck"
  /\ ui_reachable rebuilt
  /\ error rebuilt = Some "Error building deck: Error building deck"
  /\ result rebuilt = Some sample_deck
  /\ renderDeckList rebuilt <> Returns None
  /\ exists children,
       renderDeckList rebuilt = Returns (Some children)
       /\ displayed children =
          [ section_of "Commander" [atraxa];
            section_of "Creatures" [bear];
            section_of "Instants" [bolt] ].
Proof.
  split; [apply ui_reachable_built|].
  split; [reflexivity|]. split; [discriminate|].
  split; [apply fails_status_default; left; reflexivity|].
  split.
  { unfold rebuilt. apply ui_reachable_dispatch;
      [apply ui_reachable_built | reflexivity]. }
  split; [reflexivity|]. split; [reflexivity|].
  split; [discriminate|].
  eexists. split; reflexivity.
Qed.

(** After a successful build, selecting a format puts [step] back to 2 and
    keeps the built deck: [result] is not null in a state whose [step] is
    not 4. *)
Lemma result_outside_step_4 :
  ui_reachable switched /\ result switched <> None /\ step switched <> 4%Z.
Proof.
  split; [apply ui_reachable_switched|]. split; discriminate.
Qed.

(** C3, amended.  In every state of the workflow, [result] is non-null
    only when [step] is 4 or, a format having been selected since, 2. *)
Theorem result_only_at_step_4_or_2 (s : State) :
  reachable s -> result s <> None -> step s = 4%Z \/ step s = 2%Z.
Proof.
  induction 1 as [|s ev env _ IH]; [intros H; now contradiction H|].
  destruct (dispatch_step_result env ev s) as [[Hs Hr] | [[Hs Hr] | Hs]].
  - rewrite Hs, Hr. exact IH.
  - intros _. now right.
  - intros _. now left.
Qed.

Lemma result_only_at_step_4_or_2_built :
  step built = 4%Z \/ step built = 2%Z.
Proof.
  apply (result_only_at_step_4_or_2 built).
  - apply ui_reachable_reachable, ui_reachable_built.
  - discriminate.
Defined.

(** C4, at a state of the workflow.  After a commander with the partner
    ability has been entered, selecting Standard resets the format, the
    step and both names, and leaves [hasPartnerAbility] true. *)
Theorem format_change_keeps_hasPartnerAbility :
  ui_reachable commanded
  /\ hasPartnerAbility commanded = true
  /\ offered commanded (FormatChange "standard") = true
  /\ dispatch picky_service (FormatChange "standard") commanded =
     {| step := 2; format := "standard"; cardList := "1x Sol Ring";
        useCommander := false; commanderName := "";
        partnerCommander := ""; deckGoal := "";
        loading := false; error := None; result := None;
        hasPartnerAbility := true |}.
Proof.
  split; [apply ui_reachable_commanded|].
  split; [reflexivity|]. split; reflexivity.
Qed.

(** * Further properties *)

(** ** Successful validations and builds *)





(** X3. When the validation of a non-empty partner name fails,
    [/check-partner] is never called: the validation is the only request,
    the partner field is emptied and the failure reported; the commander
    name and [hasPartnerAbility] stay. *)
Theorem partner_validation_failure (state : State) (name : string)
    (env : environment) (detail : string) :
  name <> "" ->
  fails "Invalid commander name" (env (ValidateCommander name true)) detail ->
  calls env (handleCommanderInput state name true) state =
    [ValidateCommander name true]
  /\ final env (handleCommanderInput state name true) state =
     {| step := step state; format := format state;
        cardList := cardList state; useCommander := useCommander state;
        commanderName := commanderName state;
        partnerCommander := "";
        deckGoal := deckGoal state; loading := false;
        error := Some ("Error validating commander: " ++ detail)%string;
        result := result state;
        hasPartnerAbility := hasPartnerAbility state |}.
Proof.
  intros Hname Hfails. apply String.eqb_neq in Hname.
  unfold calls, final, handleCommanderInput, truthy. rewrite Hname.
  cbn -[String.append].
  inversion Hfails as [m E | e text He Ht E | e [He | He] E | m E | m E];
    cbn -[String.append]; try rewrite He; cbn -[String.append];
    try (apply String.eqb_neq in Ht; unfold truthy; rewrite Ht);
    split; reflexivity.
Qed.

Lemma partner_validation_failure_offline :
  calls offline (handleCommanderInput commanded "Thrasios" true) commanded =
    [ValidateCommander "Thrasios" true]
  /\ final offline (handleCommanderInput commanded "Thrasios" true) commanded =
     {| step := 2; format := "commander"; cardList := "1x Sol Ring";
        useCommander := true; commanderName := "Tymna the Weaver";
        partnerCommander := ""; deckGoal := ""; loading := false;
        error := Some "Error validating commander: Failed to fetch";
        result := None; hasPartnerAbility := true |}.
Proof.
  apply (partner_validation_failure commanded "Thrasios" offline
           "Failed to fetch"); [discriminate | apply fails_rejected].
Defined.

(** X4. A failed validation of the commander changes [commanderName],
    [loading] and [error] only: the partner name and the partner ability
    learnt for an earlier commander are kept. *)
Theorem commander_validation_failure_keeps_partner (state : State)
    (name : string) (env : environment) (detail : string) :
  name <> "" ->
  fails "Invalid commander name" (env (ValidateCommander name false)) detail ->
  final env (handleCommanderInput state name false) state =
  {| step := step state; format := format state;
     cardList := cardList state; useCommander := useCommander state;
     commanderName := "";
     partnerCommander := partnerCommander state;
     deckGoal := deckGoal state; loading := false;
     error := Some ("Error validating commander: " ++ detail)%string;
     result := result state;
     hasPartnerAbility := hasPartnerAbility state |}.
Proof.
  intros Hname Hfails. apply String.eqb_neq in Hname.
  unfold final, handleCommanderInput, truthy. rewrite Hname.
  cbn -[String.append].
  inversion Hfails as [m E | e text He Ht E | e [He | He] E | m E | m E];
    cbn -[String.append]; try rewrite He; cbn -[String.append];
    try (apply String.eqb_neq in Ht; unfold truthy; rewrite Ht);
    reflexivity.
Qed.

Lemma commander_validation_failure_keeps_partner_sample :
  final offline (handleCommanderInput commanded "Storm Crow" false) commanded =
  {| step := 2; format := "commander"; cardList := "1x Sol Ring";
     useCommander := true; commanderName := "";
     partnerCommander := ""; deckGoal := ""; loading := false;
     error := Some "Error validating commander: Failed to fetch";
     result := None; hasPartnerAbility := true |}.
Proof.
  apply (commander_validation_failure_keeps_partner commanded "Storm Crow"
           offline "Failed to fetch"); [discriminate | apply fails_rejected].
Defined.

(** The state after a successful build. *)
Lemma build_success_frame (state : State) (env : environment)
    (deck : option BuiltDeck) :
  cardList state <> "" ->
  env (BuildDeck (format state) (cardList state) (commanderName state)
         (partnerCommander state) (deckGoal state)) =
    Resolved (Ok (Fulfils deck)) ->
  final env (handleBuildDeck state) state =
  {| step := 4; format := format state;
     cardList := cardList state; useCommander := useCommander state;
     commanderName := commanderName state;
     partnerCommander := partnerCommander state;
     deckGoal := deckGoal state; loading := false; error := None;
     result := deck;
     hasPartnerAbility := hasPartnerAbility state |}.
Proof.
  intros Hlist Hbuilt. apply String.eqb_neq in Hlist.
  unfold final, handleBuildDeck, truthy. rewrite Hlist.
  cbn -[String.append]. rewrite Hbuilt. reflexivity.
Qed.



(** The requests an event can issue. *)
Lemma event_requests (env : environment) (ev : event) (s : State)
    (r : request) :
  In r (calls env (handler s ev) s) ->
  match ev, r with
  | CommanderInput value isPartner, ValidateCommander n p =>
      n = value /\ p = isPartner /\ value <> ""
  | CommanderInput value true, CheckPartner c1 c2 =>
      c1 = commanderName s /\ c2 = value /\ value <> ""
  | BuildDeckClick, BuildDeck f cl c pc dg =>
      f = format s /\ cl = cardList s /\ c = commanderName s /\
      pc = partnerCommander s /\ dg = deckGoal s /\ cardList s <> ""
  | _, _ => False
  end.
Proof.
  destruct ev as [f | [[[m | t]] | ] | v | v [|] | v | ];
    unfold calls, handler,
      handleFormatChange, handleFileUpload, handleCommanderInput,
      handleBuildDeck, handleCardListChange, handleDeckGoalChange;
    cbn -[String.append truthy];
    try (intros []);
    match goal with
    | |- context [truthy ?x] =>
        destruct (truthy x) eqn:Htruthy;
        [ assert (x <> "")
            by (intros E; rewrite E in Htruthy; discriminate Htruthy) | ]
    end;
    cbn -[String.append truthy];
    repeat (branch; cbn -[String.append truthy]);
    intros Hin; repeat (destruct Hin as [<- | Hin]);
    try contradiction; repeat split; assumption.
Qed.

(** X6. Whatever the service answers, a handled event issues only these
    requests: a commander or partner entry validates the typed name, which
    is not empty; only a partner entry checks compatibility, of the
    commander name of the render with the typed name; only a build click
    posts a build, of the five inputs of the render, with a card list that
    is not empty.  The other events issue none. *)
Theorem requests_of_event (env : environment) (ev : event) (s : State)
    (r : request) :
  In r (calls env (handler s ev) s) ->
  match ev, r with
  | CommanderInput value isPartner, ValidateCommander n p =>
      n = value /\ p = isPartner /\ value <> ""
  | CommanderInput value true, CheckPartner c1 c2 =>
      c1 = commanderName s /\ c2 = value /\ value <> ""
  | BuildDeckClick, BuildDeck f cl c pc dg =>
      f = format s /\ cl = cardList s /\ c = commanderName s /\
      pc = partnerCommander s /\ dg = deckGoal s /\ cardList s <> ""
  | _, _ => False
  end.
Proof. exact (event_requests env ev s r). Qed.

Lemma requests_of_event_sample :
  "commander" = format commanded /\ "1x Sol Ring" = cardList commanded /\
  "Tymna the Weaver" = commanderName commanded /\
  "" = partnerCommander commanded /\ "" = deckGoal commanded /\
  cardList commanded <> "".
Proof.
  exact (requests_of_event picky_service BuildDeckClick commanded
           (BuildDeck "commander" "1x Sol Ring" "Tymna the Weaver" "" "")
           (or_introl eq_refl)).
Defined.

(** X21. No event makes the form retry or repeat a request: a partner
    entry issues two requests at most, a commander entry and a build click
    one at most, every other event none. *)
Theorem request_count (env : environment) (ev : event) (s : State) :
  (length (calls env (handler s ev) s) <=
   match ev with
   | CommanderInput _ true => 2
   | CommanderInput _ false => 1
   | BuildDeckClick => 1
   | _ => 0
   end)%nat.
Proof.
  destruct ev as [f | [[[m | t]] | ] | v | v [|] | v | ];
    unfold calls, handler,
      handleFormatChange, handleFileUpload, handleCommanderInput,
      handleBuildDeck, handleCardListChange, handleDeckGoalChange;
    cbn -[String.append truthy];
    repeat (branch; cbn -[String.append truthy]); lia.
Qed.

(** ** Local events *)

(** X7. A file upload issues no request and touches [cardList] and
    [error] only: without a file nothing changes; a file that reads
    replaces [cardList] by its text and clears [error]; a file that does
    not read sets the read error and keeps [cardList]. *)
Theorem file_upload_effect (env : environment) (file : option File)
    (s : State) :
  calls env (handleFileUpload file) s = []
  /\ final env (handleFileUpload file) s =
     {| step := step s; format := format s;
        cardList := match file with
                    | Some {| text := Fulfils t |} => t
                    | _ => cardList s
                    end;
        useCommander := useCommander s;
        commanderName := commanderName s;
        partnerCommander := partnerCommander s;
        deckGoal := deckGoal s; loading := loading s;
        error := match file with
                 | Some {| text := Fulfils _ |} => None
                 | Some {| text := Rejects _ |} =>
                     Some "Error reading file. Please try again."
                 | None => error s
                 end;
        result := result s;
        hasPartnerAbility := hasPartnerAbility s |}.
Proof.
  destruct file as [[[m | t]] | ]; split; try reflexivity.
  now destruct s.
Qed.

(** Of two format selections in a row the second decides: the state
    is the one the second selection alone would give.  Selecting the same
    format twice is selecting it once. *)
Lemma format_change_last_wins (env1 env2 : environment) (f g : string)
    (s : State) :
  dispatch env2 (FormatChange g) (dispatch env1 (FormatChange f) s) =
  dispatch env2 (FormatChange g) s.
Proof. reflexivity. Qed.

(** X8. A failed build leaves the form ready for a retry: when the first
    submission fails and a second one succeeds, the state is the one a
    first success would have given, with no trace of the failure. *)
Theorem build_retry (state : State) (env1 env2 : environment)
    (detail : string) (deck : option BuiltDeck) :
  cardList state <> "" ->
  fails "Error building deck"
    (env1 (BuildDeck (format state) (cardList state) (commanderName state)
             (partnerCommander state) (deckGoal state))) detail ->
  env2 (BuildDeck (format state) (cardList state) (commanderName state)
          (partnerCommander state) (deckGoal state)) =
    Resolved (Ok (Fulfils deck)) ->
  dispatch env2 BuildDeckClick (dispatch env1 BuildDeckClick state) =
  dispatch env2 BuildDeckClick state.
Proof.
  intros Hlist Hfails Hbuilt. unfold dispatch, handler.
  rewrite (build_failure_frame state env1 detail Hlist Hfails).
  rewrite (build_success_frame state env2 deck Hlist Hbuilt).
  match goal with
  | |- final _ (handleBuildDeck ?s1) _ = _ =>
      exact (build_success_frame s1 env2 deck Hlist Hbuilt)
  end.
Qed.

Lemma build_retry_sample :
  dispatch picky_service BuildDeckClick
    (dispatch offline BuildDeckClick commanded) =
  dispatch picky_service BuildDeckClick commanded.
Proof.
  apply (build_retry commanded offline picky_service "Failed to fetch"
           (Some sample_deck));
    [discriminate | apply fails_rejected | reflexivity].
Defined.

(** ** Invariants of the workflow *)

(** X9. In every state of the workflow [useCommander] says whether the
    format is ["commander"]. *)
Theorem useCommander_tracks_format (s : State) :
  reachable s -> useCommander s = (format s =? "commander").
Proof.
  induction 1 as [|s ev env _ IH]; [reflexivity|].
  run_event ev; first [exact IH | reflexivity].
Qed.

Lemma useCommander_tracks_format_switched :
  useCommander switched = (format switched =? "commander").
Proof.
  apply (useCommander_tracks_format switched).
  apply ui_reachable_reachable, ui_reachable_switched.
Defined.

(** X10. In every state of the workflow [step] is 1, 2 or 4, and an event
    never takes it back to 1. *)
Theorem step_values (s : State) :
  reachable s ->
  (step s = 1 \/ step s = 2 \/ step s = 4)%Z
  /\ forall env ev, step s <> 1%Z -> step (dispatch env ev s) <> 1%Z.
Proof.
  intros Hs. split.
  - induction Hs as [|s ev env _ IH]; [now left|].
    destruct (dispatch_step_result env ev s) as [[E _] | [[E _] | E]];
      rewrite E; auto.
  - intros env ev Hne.
    destruct (dispatch_step_result env ev s) as [[E _] | [[E _] | E]];
      rewrite E; [exact Hne | discriminate | discriminate].
Qed.

Lemma step_values_built :
  (step built = 1 \/ step built = 2 \/ step built = 4)%Z
  /\ forall env ev, step built <> 1%Z -> step (dispatch env ev built) <> 1%Z.
Proof.
  apply (step_values built).
  apply ui_reachable_reachable, ui_reachable_built.
Defined.

(** What an offered build click knows of the state. *)
Lemma offered_build (s : State) :
  offered s BuildDeckClick = true ->
  format s = "commander" /\ loading s = false /\
  truthy (cardList s) = true /\ truthy (commanderName s) = true.
Proof.
  unfold offered. rewrite !andb_true_iff, negb_true_iff, !orb_false_iff,
    !negb_false_iff, String.eqb_eq. tauto.
Qed.

(** X11. Through the controls the form offers, the guard of
    [handleBuildDeck] never fires: in no state of such a session is
    [error] the message ["Please provide a card list"]. *)
Theorem guard_message_never_shown (s : State) :
  ui_reachable s -> error s <> Some "Please provide a card list".
Proof.
  induction 1 as [|s ev env _ IH Hoffered]; [discriminate|].
  destruct ev as [f | [[[m | t]] | ] | v | v p | v | ];
    try (exact IH); try discriminate.
  - unfold dispatch, handler, final, handleCommanderInput.
    destruct p; cbn -[String.append truthy];
      repeat (branch; cbn -[String.append truthy]); discriminate.
  - apply offered_build in Hoffered. destruct Hoffered as (_ & _ & Hlist & _).
    unfold dispatch, handler, final, handleBuildDeck. rewrite Hlist.
    cbn -[String.append truthy];
      repeat (branch; cbn -[String.append truthy]); discriminate.
Qed.

Lemma guard_message_never_shown_built :
  error built <> Some "Please provide a card list".
Proof.
  apply (guard_message_never_shown built), ui_reachable_built.
Defined.

(** Only a format selection changes [format]. *)
Lemma dispatch_format (env : environment) (ev : event) (s : State) :
  format (dispatch env ev s) =
  match ev with
  | FormatChange f => f
  | _ => format s
  end.
Proof. run_event ev; reflexivity. Qed.

(** A build click changes neither name. *)
Lemma build_keeps_names (env : environment) (s : State) :
  commanderName (dispatch env BuildDeckClick s) = commanderName s
  /\ partnerCommander (dispatch env BuildDeckClick s) = partnerCommander s.
Proof.
  unfold dispatch, handler, final, handleBuildDeck.
  cbn -[String.append truthy];
    repeat (branch; cbn -[String.append truthy]); split; reflexivity.
Qed.

(** X12. Through the controls the form offers, commander names exist in
    the Commander format only: in every state of such a session whose
    format is not ["commander"], both names are empty. *)
Theorem names_only_in_commander_format (s : State) :
  ui_reachable s ->
  format s <> "commander" ->
  commanderName s = "" /\ partnerCommander s = "".
Proof.
  induction 1 as [|s ev env _ IH Hoffered]; [split; reflexivity|].
  rewrite dispatch_format.
  destruct ev as [f | file | v | v p | v | ].
  - split; reflexivity.
  - destruct file as [[[m | t]] | ]; exact IH.
  - exact IH.
  - cbn in Hoffered. rewrite !andb_true_iff, String.eqb_eq in Hoffered.
    intros Hne. now destruct Hoffered as [[_ Hf] _].
  - exact IH.
  - destruct (build_keeps_names env s) as [-> ->]. exact IH.
Qed.

Lemma names_only_in_commander_format_switched :
  commanderName switched = "" /\ partnerCommander switched = "".
Proof.
  apply (names_only_in_commander_format switched);
    [apply ui_reachable_switched | discriminate].
Defined.

(** X13. Until a format is picked the form offers nothing else: a state of
    a session through the offered controls is the initial state, or its
    [step] is at least 2 and its format is ["standard"] or
    ["commander"]. *)
Theorem format_picked_first (s : State) :
  ui_reachable s ->
  s = initialState
  \/ ((2 <= step s)%Z /\ (format s = "standard" \/ format s = "commander")).
Proof.
  induction 1 as [|s ev env _ IH Hoffered]; [now left|]. right.
  assert (Hstep : (2 <= step s)%Z -> (2 <= step (dispatch env ev s))%Z).
  { destruct (dispatch_step_result env ev s) as [[E _] | [[E _] | E]];
      rewrite E; lia. }
  rewrite dispatch_format.
  destruct ev as [f | file | v | v p | v | ].
  - split; [cbn; lia|]. cbn in Hoffered.
    rewrite orb_true_iff, !String.eqb_eq in Hoffered. exact Hoffered.
  - destruct IH as [-> | [Hs Hf]]; [discriminate Hoffered | auto].
  - destruct IH as [-> | [Hs Hf]]; [discriminate Hoffered | auto].
  - destruct IH as [-> | [Hs Hf]]; [discriminate Hoffered | auto].
  - destruct IH as [-> | [Hs Hf]]; [discriminate Hoffered | auto].
  - destruct IH as [-> | [Hs Hf]]; [discriminate Hoffered | auto].
Qed.

Lemma format_picked_first_built :
  built = initialState
  \/ ((2 <= step built)%Z /\
      (format built = "standard" \/ format built = "commander")).
Proof. apply (format_picked_first built), ui_reachable_built. Defined.

(** X14. Through the controls the form offers, every build request is for
    the Commander format and carries a card list and a commander name
    that are not empty: whatever the session, from whatever state. *)
Theorem offered_sessions_build_commander_decks
    (steps : list (environment * event)) (s : State)
    (f cl c pc dg : string) :
  session_offered steps s = true ->
  In (BuildDeck f cl c pc dg) (session_calls steps s) ->
  f = "commander" /\ cl <> "" /\ c <> "".
Proof.
  revert s; induction steps as [|[env ev] steps IH]; intros s Hoffered Hin;
    [contradiction|].
  cbn [session_offered session_calls] in Hoffered, Hin.
  apply andb_true_iff in Hoffered. destruct Hoffered as [Hev Hrest].
  apply in_app_or in Hin. destruct Hin as [Hin | Hin];
    [|exact (IH _ Hrest Hin)].
  pose proof (event_requests env ev s _ Hin) as H.
  destruct ev as [? | ? | ? | ? [|] | ? | ]; try contradiction.
  destruct H as (-> & -> & -> & _ & _ & _).
  apply offered_build in Hev. destruct Hev as (Hf & _ & Hl & Hc).
  unfold truthy in Hl, Hc. rewrite negb_true_iff, String.eqb_neq in Hl, Hc.
  auto.
Qed.

Lemma offered_sessions_build_commander_decks_sample :
  "commander" = "commander" /\ "1x Sol Ring" <> "" /\ "Tymna the Weaver" <> "".
Proof.
  apply (offered_sessions_build_commander_decks
           [ (picky_service, FormatChange "commander");
             (picky_service, CardListChange "1x Sol Ring");
             (picky_service, CommanderInput "Tymna the Weaver" false);
             (picky_service, BuildDeckClick) ]
           initialState "commander" "1x Sol Ring" "Tymna the Weaver" "" "");
    [reflexivity | cbn; auto].
Defined.

(** ** More on the deck list *)

(** X15. With a result, [renderDeckList] returns its sections exactly when
    the result carries a commander object; when the result has no
    commander the call throws instead, whatever the cards. *)
Theorem renderDeckList_returns_iff_commander (s : State) (d : BuiltDeck) :
  result s = Some d ->
  ((exists children, renderDeckList s = Returns (Some children))
   <-> commander d <> None)
  /\ (commander d = None ->
      exists message, renderDeckList s = Throws message).
Proof.
  intros Hr.
  assert (Hthrows : commander d = None ->
                    exists message, renderDeckList s = Throws message).
  { intros Hc. unfold renderDeckList.
    rewrite Hr, categorizedCards_closed, Hc. eexists. reflexivity. }
  split; [|exact Hthrows]. split.
  - intros [children H] Hc. destruct (Hthrows Hc) as [message E].
    rewrite E in H. discriminate H.
  - intros Hc. destruct (commander d) as [c|] eqn:E; [|contradiction].
    eexists. exact (renderDeckList_children s d c Hr E).
Qed.

Lemma renderDeckList_returns_iff_commander_sample :
  ((exists children,
      renderDeckList (showing headless_deck) = Returns (Some children))
   <-> commander headless_deck <> None)
  /\ (commander headless_deck = None ->
      exists message, renderDeckList (showing headless_deck) = Throws message).
Proof.
  exact (renderDeckList_returns_iff_commander
           (showing headless_deck) headless_deck eq_refl).
Defined.

Lemma length_items_from (l : list card) (i : nat) :
  length (items_from i l) = length l.
Proof. revert i; induction l; intros i; cbn; congruence. Qed.

Lemma index_items_from (l : list card) (i : nat) :
  map index (items_from i l) = seq i (length l).
Proof. revert i; induction l; intros i; cbn; congruence. Qed.

Lemma in_section_if_any (k : string) (l : list card) (section : Section) :
  In section (section_if_any k l) -> section = section_of k l /\ l <> [].
Proof.
  destruct l; [contradiction|]. intros [<- | []]. split; [reflexivity|discriminate].
Qed.

(** What [renderDeckList] displays for a result with a commander. *)
Lemma renderDeckList_displayed (s : State) (d : BuiltDeck) (c : card)
    (children : list (option Section)) :
  result s = Some d -> commander d = Some c ->
  renderDeckList s = Returns (Some children) ->
  displayed children =
    section_of "Commander" [c] ::
    section_if_any "Partner" (optional (partner d)) ++
    flat_map (fun entry =>
                section_if_any (fst entry) (cards_in (fst entry) (cards d)))
             type_categories.
Proof.
  intros Hr Hc H. rewrite (renderDeckList_children s d c Hr Hc) in H.
  match type of H with
  | Returns (Some ?e) = _ => set (expected := e) in H
  end.
  injection H as <-. unfold expected, displayed. cbn [flat_map].
  fold (displayed
    (map (fun entry => child_of (fst entry) (cards_in (fst entry) (cards d)))
         type_categories)).
  rewrite (displayed_child_of fst (fun entry => cards_in (fst entry) (cards d))).
  destruct (partner d); reflexivity.
Qed.

(** X16. Every section on display has at least one item, a heading that
    is its title followed by the number of its items in brackets, and
    items keyed 0, 1, 2, ... *)
Theorem displayed_sections_well_formed (s : State) (d : BuiltDeck) (c : card)
    (children : list (option Section)) (section : Section) :
  result s = Some d -> commander d = Some c ->
  renderDeckList s = Returns (Some children) ->
  In section (displayed children) ->
  ul section <> []
  /\ h3 section =
     (category section ++ " (" ++ string_of_nat (length (ul section)) ++ ")")%string
  /\ map index (ul section) = seq 0 (length (ul section)).
Proof.
  intros Hr Hc H Hin.
  rewrite (renderDeckList_displayed s d c children Hr Hc H) in Hin.
  assert (Hsec : exists k l, section = section_of k l /\ l <> []).
  { destruct Hin as [<- | Hin]; [exists "Commander", [c]; split; [reflexivity|discriminate]|].
    apply in_app_or in Hin. destruct Hin as [Hin | Hin].
    - apply in_section_if_any in Hin. eauto.
    - apply in_flat_map in Hin. destruct Hin as [entry [_ Hin]].
      apply in_section_if_any in Hin. eauto. }
  destruct Hsec as (k & l & -> & Hl).
  cbn [section_of ul h3 category].
  rewrite length_items_from, index_items_from.
  split; [|split; reflexivity].
  destruct l; [contradiction|discriminate].
Qed.

Lemma displayed_sections_well_formed_sample :
  ul (section_of "Creatures" [bear]) <> []
  /\ h3 (section_of "Creatures" [bear]) =
     (category (section_of "Creatures" [bear]) ++ " (" ++
      string_of_nat (length (ul (section_of "Creatures" [bear]))) ++ ")")%string
  /\ map index (ul (section_of "Creatures" [bear])) =
     seq 0 (length (ul (section_of "Creatures" [bear]))).
Proof.
  apply (displayed_sections_well_formed (showing sample_deck) sample_deck
           atraxa
           [ Some (section_of "Commander" [atraxa]); None;
             Some (section_of "Creatures" [bear]);
             Some (section_of "Instants" [bolt]);
             None; None; None; None; None ]);
    [reflexivity | reflexivity | reflexivity | cbn; auto].
Defined.

Lemma length_shown_section (k : string) (l : list card) :
  length (flat_map ul (section_if_any k l)) = length l.
Proof.
  destruct l; [reflexivity|].
  cbn [section_if_any flat_map section_of ul]. rewrite app_nil_r.
  apply length_items_from.
Qed.

(** Each card with a category is in the array of one category. *)
Lemma cards_in_total (l : list card) :
  (length (cards_in "Creatures" l) + length (cards_in "Instants" l) +
   length (cards_in "Sorceries" l) + length (cards_in "Artifacts" l) +
   length (cards_in "Enchantments" l) + length (cards_in "Planeswalkers" l) +
   length (cards_in "Lands" l))%nat =
  length (filter categorised l).
Proof.
  induction l as [|c l IH]; [reflexivity|].
  rewrite !cards_in_cons. cbn [filter]. unfold categorised at 1.
  rewrite category_of_chain.
  repeat (destruct (matches c _); [cbn; lia|]). cbn; lia.
Qed.

(** X17. The number of items on display is one for the commander, one for
    the partner if there is one, and one for each card whose type names a
    category: the other cards are not shown, and no card is shown
    twice. *)
Theorem shown_item_count (s : State) (d : BuiltDeck) (c : card)
    (children : list (option Section)) :
  result s = Some d -> commander d = Some c ->
  renderDeckList s = Returns (Some children) ->
  length (shown_items children) =
  (1 + length (optional (partner d)) +
   length (filter categorised (cards d)))%nat.
Proof.
  intros Hr Hc H. unfold shown_items.
  rewrite (renderDeckList_displayed s d c children Hr Hc H).
  cbn [flat_map type_categories fst]. rewrite !flat_map_app, !length_app.
  rewrite !length_shown_section, <- cards_in_total. cbn. lia.
Qed.

Lemma shown_item_count_sample :
  length (shown_items
            [ Some (section_of "Commander" [atraxa]); None;
              Some (section_of "Creatures" [bear]);
              Some (section_of "Instants" [bolt]);
              None; None; None; None; None ]) =
  (1 + length (optional (partner sample_deck)) +
   length (filter categorised (cards sample_deck)))%nat.
Proof.
  apply (shown_item_count (showing sample_deck) sample_deck atraxa);
    reflexivity.
Defined.

(** ** The form with one hook per field *)

(** X18. [buildDeck] has no guard of its own: from any state, an empty
    card list included, it posts exactly one build request with the five
    inputs of its render; and whatever the answer it returns normally
    with [loading] false, thanks to [catch] and [finally]. *)
Theorem variant_buildDeck_always (env : environment) (state : Variant.State) :
  Variant.calls env (Variant.buildDeck state) state =
    [BuildDeck (Variant.format state) (Variant.cardList state)
       (Variant.commander state) (Variant.partnerCommander state)
       (Variant.deckGoal state)]
  /\ Variant.loading (Variant.final env (Variant.buildDeck state) state)
     = false
  /\ Variant.outcome env (Variant.buildDeck state) state = Returns tt.
Proof.
  unfold Variant.calls, Variant.final, Variant.outcome, Variant.buildDeck.
  cbn.
  destruct (env _) as [m | [[m | e] | [m | d]]]; cbn; repeat split.
Qed.

(** X19. When the build succeeds, [deck] is the body, [error] is empty and
    [loading] false; the inputs are as before. *)
Theorem variant_buildDeck_success (env : environment) (state : Variant.State)
    (d : option BuiltDeck) :
  env (BuildDeck (Variant.format state) (Variant.cardList state)
         (Variant.commander state) (Variant.partnerCommander state)
         (Variant.deckGoal state)) = Resolved (Ok (Fulfils d)) ->
  Variant.final env (Variant.buildDeck state) state =
  {| Variant.commander := Variant.commander state;
     Variant.partnerCommander := Variant.partnerCommander state;
     Variant.cardList := Variant.cardList state;
     Variant.deckGoal := Variant.deckGoal state;
     Variant.format := Variant.format state;
     Variant.loading := false;
     Variant.error := "";
     Variant.deck := d |}.
Proof.
  intros H. unfold Variant.final, Variant.buildDeck. cbn. rewrite H.
  reflexivity.
Qed.

Lemma variant_buildDeck_success_sample :
  Variant.final picky_service (Variant.buildDeck variant_form) variant_form =
  {| Variant.commander := "Atraxa";
     Variant.partnerCommander := "";
     Variant.cardList := "1x Bolt";
     Variant.deckGoal := "Control";
     Variant.format := "modern";
     Variant.loading := false;
     Variant.error := "";
     Variant.deck := Some sample_deck |}.
Proof.
  exact (variant_buildDeck_success picky_service variant_form
           (Some sample_deck) eq_refl).
Defined.

(** X20. When the build fails with a detail (the message of a rejected
    [fetch] or [json()], or the error text of a body with a status other
    than 2xx), [error] is that bare detail, with no prefix and no default:
    an empty error text leaves [error] empty, so that no alert is
    rendered.  [deck] keeps the deck of an earlier build and [loading] is
    false. *)
Theorem variant_buildDeck_failure (env : environment) (state : Variant.State)
    (detail : string) :
  let answer :=
    env (BuildDeck (Variant.format state) (Variant.cardList state)
           (Variant.commander state) (Variant.partnerCommander state)
           (Variant.deckGoal state)) in
  answer = Rejected detail
  \/ answer = Resolved (NotOk (Rejects detail))
  \/ answer = Resolved (Ok (Rejects detail))
  \/ (exists e, answer = Resolved (NotOk (Fulfils e))
                /\ ErrorBody.error e = Some detail) ->
  Variant.final env (Variant.buildDeck state) state =
    {| Variant.commander := Variant.commander state;
       Variant.partnerCommander := Variant.partnerCommander state;
       Variant.cardList := Variant.cardList state;
       Variant.deckGoal := Variant.deckGoal state;
       Variant.format := Variant.format state;
       Variant.loading := false;
       Variant.error := detail;
       Variant.deck := Variant.deck state |}
  /\ Variant.alert (Variant.final env (Variant.buildDeck state) state) =
     if truthy detail then Some detail else None.
Proof.
  intros answer H. subst answer.
  unfold Variant.alert, Variant.final, Variant.buildDeck. cbn.
  destruct H as [H | [H | [H | [e [H He]]]]]; rewrite H; cbn;
    try rewrite He; cbn; split; reflexivity.
Qed.

Lemma variant_buildDeck_failure_silent :
  Variant.final terse_service (Variant.buildDeck variant_form) variant_form =
    {| Variant.commander := "Atraxa";
       Variant.partnerCommander := "";
       Variant.cardList := "1x Bolt";
       Variant.deckGoal := "Control";
       Variant.format := "modern";
       Variant.loading := false;
       Variant.error := "";
       Variant.deck := None |}
  /\ Variant.alert
       (Variant.final terse_service (Variant.buildDeck variant_form)
          variant_form) = None.
Proof.
  apply (variant_buildDeck_failure terse_service variant_form "").
  right; right; right. eexists. split; reflexivity.
Defined.

(** ** Errors never escape *)

(** X22. Whatever the service does (a rejected connection, an unreadable
    body, an error status), every handler of the form returns normally:
    each thrown error is caught and none is left as an unhandled
    rejection. *)
Theorem no_unhandled_rejection (env : environment) (ev : event) (s : State) :
  outcome env (handler s ev) s = Returns tt.
Proof.
  destruct ev as [f | [[[m | t]] | ] | v | v [|] | v | ];
    unfold outcome, handler,
      handleFormatChange, handleFileUpload, handleCommanderInput,
      handleBuildDeck, handleCardListChange, handleDeckGoalChange;
    cbn -[String.append truthy];
    repeat (branch; cbn -[String.append truthy]); reflexivity.
Qed.
